(** * MJPEG camera web server ([rpi/camera_web/main.py])

    A shallow embedding of the streaming server: the template loader, the
    frame sink [StreamingOutput], the request handler [do_GET] together with
    the part of [http.server.BaseHTTPRequestHandler] it drives, the startup
    helpers, and an interleaving model of the capture thread and the
    streaming threads that meet at the sink's condition variable. *)

From Stdlib Require Import String Ascii List NArith Arith Lia DecimalString Decimal.
From Stdlib.Strings Require Import Byte.
From stdpp Require Import base list strings option gmap.

Open Scope string_scope.
Open Scope list_scope.

(** ** Byte strings, text and formatting *)

(** [bytes]: a Python [bytes] object. *)
Abbreviation bytes := (list byte).

Definition CRLF : string := String "013" (String "010" EmptyString).

(** [s.encode('latin-1')] for a [str] whose code points are below 256, which
    is what a Rocq [string] holds. *)
Definition latin1 (s : string) : bytes := list_byte_of_string s.

(** ["%d" % n] and [str(n)] for a non-negative integer. *)
Definition str_of_nat (n : nat) : string :=
  NilEmpty.string_of_uint (Nat.to_uint n).

(** A Python [str] of arbitrary code points (the template may hold any
    Unicode text). *)
Abbreviation text := (list N).

Definition text_of_string (s : string) : text :=
  map N_of_ascii (list_ascii_of_string s).

Definition byte_of_N (n : N) : byte := byte_of_ascii (ascii_of_N n).

(** One code point in UTF-8. *)
Definition utf8_char (c : N) : bytes :=
  if (c <? 128)%N then [byte_of_N c]
  else if (c <? 2048)%N then
    [byte_of_N (N.lor 192 (N.shiftr c 6));
     byte_of_N (N.lor 128 (N.land c 63))]
  else if (c <? 65536)%N then
    [byte_of_N (N.lor 224 (N.shiftr c 12));
     byte_of_N (N.lor 128 (N.land (N.shiftr c 6) 63));
     byte_of_N (N.lor 128 (N.land c 63))]
  else
    [byte_of_N (N.lor 240 (N.shiftr c 18));
     byte_of_N (N.lor 128 (N.land (N.shiftr c 12) 63));
     byte_of_N (N.lor 128 (N.land (N.shiftr c 6) 63));
     byte_of_N (N.lor 128 (N.land c 63))].

(** [t.encode('utf-8')]. *)
Definition utf8_encode (t : text) : bytes := flat_map utf8_char t.

(** [needle in hay] for two [str]. *)
Fixpoint str_in (needle hay : string) : bool :=
  String.prefix needle hay ||
  match hay with
  | EmptyString => false
  | String _ rest => str_in needle rest
  end.

(** ** Paths ([os.path], POSIX flavour) *)

Definition slash : ascii := "/"%char.

Definition ends_with_slash (p : string) : bool :=
  match rev (list_ascii_of_string p) with
  | c :: _ => Ascii.eqb c slash
  | [] => false
  end.

(** [os.path.join(a, b)]. *)
Definition path_join (a b : string) : string :=
  if String.prefix "/" b then b
  else if (String.eqb a "" || ends_with_slash a)%bool then a +:+ b
  else a +:+ "/" +:+ b.

Fixpoint drop_slashes (l : list ascii) : list ascii :=
  match l with
  | c :: l' => if Ascii.eqb c slash then drop_slashes l' else l
  | [] => []
  end.

Fixpoint drop_to_slash (l : list ascii) : list ascii :=
  match l with
  | c :: l' => if Ascii.eqb c slash then l else drop_to_slash l'
  | [] => []
  end.

(** [os.path.dirname(p)]: the head up to the last slash, with its trailing
    slashes stripped unless it consists of slashes only. *)
Definition dirname (p : string) : string :=
  let head := drop_to_slash (rev (list_ascii_of_string p)) in
  match drop_slashes head with
  | [] => string_of_list_ascii (rev head)
  | stripped => string_of_list_ascii (rev stripped)
  end.

(** ** Exceptions and the effect monad *)

(** The exceptions the modelled operations raise; every one of them derives
    from Python's [Exception]. *)
Inductive exn : Type :=
| FileNotFoundError (path : string)
| BrokenPipeError
| ConnectionResetError
| TypeError (msg : string)
| OSError (msg : string)
| RuntimeError (msg : string).

(** [str(e)]. *)
Definition exn_str (e : exn) : string :=
  match e with
  | FileNotFoundError p => "[Errno 2] No such file or directory: '" +:+ p +:+ "'"
  | BrokenPipeError => "[Errno 32] Broken pipe"
  | ConnectionResetError => "[Errno 104] Connection reset by peer"
  | TypeError m => m
  | OSError m => m
  | RuntimeError m => m
  end.

Inductive Result (A : Type) : Type :=
| Ok (a : A)
| Raise (e : exn).
Arguments Ok {A} a.
Arguments Raise {A} e.

(** A computation over a state [S] that returns or raises; the state
    survives a raise, as the effects of Python code done before an exception
    do. *)
Definition M (S A : Type) : Type := S -> Result A * S.

Definition ret {S A} (a : A) : M S A := fun s => (Ok a, s).

Definition bind {S A B} (m : M S A) (k : A -> M S B) : M S B :=
  fun s =>
    match m s with
    | (Ok a, s') => k a s'
    | (Raise e, s') => (Raise e, s')
    end.

#[global] Instance M_ret S : MRet (M S) := fun A a => ret a.
#[global] Instance M_bind S : MBind (M S) := fun A B k m => bind m k.

Definition raise {S A} (e : exn) : M S A := fun s => (Raise e, s).
Definition gets {S A} (f : S -> A) : M S A := fun s => (Ok (f s), s).
Definition modify {S} (f : S -> S) : M S unit := fun s => (Ok tt, f s).

(** [try: body  except <classes> as e: handler e].  [handler e = None] when
    no [except] clause matches the class of [e]. *)
Definition try_except {S A} (body : M S A) (handler : exn -> option (M S A))
  : M S A :=
  fun s =>
    match body s with
    | (Ok a, s') => (Ok a, s')
    | (Raise e, s') =>
        match handler e with
        | Some h => h s'
        | None => (Raise e, s')
        end
    end.

(** ** The world outside the process *)

Inductive level : Type := INFO | WARNING | ERROR.

(** [fs]: the text files on disk, as [open(..., 'r', encoding='utf-8')] and
    [read()] see them: absent, readable with a decoded content, or failing
    with an error other than "not found".  [log]: the records handed to
    the [logging] module, in order; the level of the root logger, which
    decides whether a handler prints an INFO record, is not modelled.
    [opened]: the paths passed to [open].  [made_dirs],
    [capture_calls], [snapshots]: the calls to [os.makedirs] and
    [picam2.capture_file], and the files the latter wrote. *)
Record World : Type := mkWorld {
  fs : gmap string (Result text);
  log : list (level * string);
  opened : list string;
  made_dirs : list string;
  capture_calls : list string;
  snapshots : list string
}.

Definition logging (l : level) (msg : string) : M World unit :=
  modify (fun w => mkWorld (fs w) (log w ++ [(l, msg)]) (opened w)
                     (made_dirs w) (capture_calls w) (snapshots w)).

(** [with open(path, 'r', encoding='utf-8') as file: file.read()]. *)
Definition open_read (path : string) : M World text :=
  fun w =>
    let w' := mkWorld (fs w) (log w) (opened w ++ [path]) (made_dirs w)
                (capture_calls w) (snapshots w) in
    match fs w !! path with
    | None => (Raise (FileNotFoundError path), w')
    | Some (Ok t) => (Ok t, w')
    | Some (Raise e) => (Raise e, w')
    end.

(** ** [load_html_template] and the module constant [HTML_TEMPLATE] *)

Definition fallback_template : text :=
  text_of_string "<html><body><h1>Error: Template not found.</h1></body></html>".

Definition load_html_template (BASE_DIR filename : string) : M World text :=
  let filepath := path_join (path_join BASE_DIR "template") filename in
  try_except (open_read filepath)
    (fun e =>
       match e with
       | FileNotFoundError _ =>
           Some (logging ERROR
                   ("HTML template file '" +:+ filepath +:+ "' not found.");;
                 mret fallback_template)
       | _ => None
       end).

(** The module-level names the handler reads.  No function of the module
    declares them [global], so none can rebind them. *)
Record Globals : Type := mkGlobals {
  BASE_DIR : string;
  HTML_TEMPLATE : text
}.

(** Module load: [HTML_TEMPLATE = load_html_template("index.html")]. *)
Definition module_load (base : string) : M World Globals :=
  t ← load_html_template base "index.html";
  mret (mkGlobals base t).

(** ** The request handler's connection ([http.server.BaseHTTPRequestHandler])

    The handler of one connection: [headers_buffer] is [_headers_buffer],
    [wfile] the bytes written to the socket so far (the socket file is
    unbuffered), [connected] whether the peer still accepts data.  The
    library's access log on [sys.stderr] is left out; requests are taken to
    be HTTP/1.x, for which the library emits the status line and headers. *)
Record Handler : Type := mkHandler {
  headers_buffer : list bytes;
  wfile : bytes;
  connected : bool
}.

(** The handler the server builds for an accepted connection. *)
Definition new_handler : Handler := mkHandler [] [] true.

(** What a request finds around it: the values the library puts in the
    [Server] and [Date] headers, the HTML page [send_error] builds, the
    client address, the result of [datetime.now().strftime("%Y%m%d_%H%M%S")],
    and whether [os.makedirs] and [picam2.capture_file] fail. *)
Record Env : Type := mkEnv {
  version_string : string;
  date_time_string : string;
  error_body : bytes;
  client_address : string;
  now : string;
  makedirs_fault : option exn;
  capture_fault : option exn
}.

(** The state a request runs on. *)
Record Conn : Type := mkConn {
  hdl : Handler;
  world : World
}.

Definition liftW {A} (m : M World A) : M Conn A :=
  fun c => let (r, w) := m (world c) in (r, mkConn (hdl c) w).

(** [self.wfile.write(b)] on a connection that is either live, and then
    the bytes are written, or closed by its peer, and then the write raises
    [BrokenPipeError]; other socket errors (a time-out, a reset in the
    middle of a write) are not modelled. *)
Definition wfile_write (b : bytes) : M Conn unit :=
  fun c =>
    if connected (hdl c)
    then (Ok tt, mkConn (mkHandler (headers_buffer (hdl c)) (wfile (hdl c) ++ b)
                           (connected (hdl c))) (world c))
    else (Raise BrokenPipeError, c).

(** [l.append(x)] on a Python list. *)
Fixpoint list_append {A} (l : list A) (x : A) : list A :=
  match l with
  | [] => [x]
  | y :: l' => y :: list_append l' x
  end.

Definition buffer_append (b : bytes) : M Conn unit :=
  modify (fun c => mkConn (mkHandler (list_append (headers_buffer (hdl c)) b)
                             (wfile (hdl c)) (connected (hdl c))) (world c)).

Definition buffer_clear : M Conn unit :=
  modify (fun c => mkConn (mkHandler [] (wfile (hdl c)) (connected (hdl c)))
                     (world c)).

(** The reason phrases of [BaseHTTPRequestHandler.responses] for the codes
    the program sends. *)
Definition responses (code : nat) : string :=
  if (code =? 200)%nat then "OK"
  else if (code =? 301)%nat then "Moved Permanently"
  else if (code =? 404)%nat then "Not Found"
  else if (code =? 500)%nat then "Internal Server Error"
  else "".

Definition status_line (code : nat) : string :=
  "HTTP/1.0 " +:+ str_of_nat code +:+ " " +:+ responses code +:+ CRLF.

Definition header_line (keyword value : string) : string :=
  keyword +:+ ": " +:+ value +:+ CRLF.

Definition send_response_only (code : nat) : M Conn unit :=
  buffer_append (latin1 (status_line code)).

Definition send_header (keyword value : string) : M Conn unit :=
  buffer_append (latin1 (header_line keyword value)).

Definition flush_headers : M Conn unit :=
  buf ← gets (fun c => headers_buffer (hdl c));
  wfile_write (concat buf);;
  buffer_clear.

Definition end_headers : M Conn unit :=
  buffer_append (latin1 CRLF);;
  flush_headers.

Definition send_response (env : Env) (code : nat) : M Conn unit :=
  send_response_only code;;
  send_header "Server" (version_string env);;
  send_header "Date" (date_time_string env).

(** [send_error(code)] for a GET request and a code that carries a body. *)
Definition send_error (env : Env) (code : nat) : M Conn unit :=
  send_response env code;;
  send_header "Connection" "close";;
  send_header "Content-Type" "text/html;charset=utf-8";;
  send_header "Content-Length" (str_of_nat (length (error_body env)));;
  end_headers;;
  match error_body env with
  | [] => mret tt
  | body => wfile_write body
  end.

(** ** The camera and the filesystem, as the snapshot route uses them *)

(** [os.makedirs(d, exist_ok=True)]. *)
Definition os_makedirs (env : Env) (d : string) : M World unit :=
  match makedirs_fault env with
  | Some e => raise e
  | None =>
      modify (fun w => mkWorld (fs w) (log w) (opened w) (made_dirs w ++ [d])
                         (capture_calls w) (snapshots w))
  end.

(** [picam2.capture_file(filepath)]. *)
Definition capture_file (env : Env) (filepath : string) : M World unit :=
  modify (fun w => mkWorld (fs w) (log w) (opened w) (made_dirs w)
                     (capture_calls w ++ [filepath]) (snapshots w));;
  match capture_fault env with
  | Some e => raise e
  | None =>
      modify (fun w => mkWorld (fs w) (log w) (opened w) (made_dirs w)
                         (capture_calls w) (snapshots w ++ [filepath]))
  end.

(** ** [StreamingHandler.do_GET] *)

(** How [do_GET] goes on after the routed branch: it returns, or it has
    sent the stream's response head and stands at [while True]. *)
Inductive outcome : Type := Returned | EnterLoop.

(** The [try] block of the [/snapshot] branch. *)
Definition snapshot_try (g : Globals) (env : Env) : M Conn unit :=
  let timestamp := now env in
  let filename := "snapshot_" +:+ timestamp +:+ ".jpg" in
  let filepath := path_join (path_join (BASE_DIR g) "snapshots") filename in
  liftW (os_makedirs env (dirname filepath));;
  liftW (capture_file env filepath);;
  send_response env 200;;
  end_headers;;
  wfile_write (latin1 "Snapshot saved.");;
  liftW (logging INFO ("Snapshot saved to " +:+ filepath)).

(** Its [except Exception as e] clause. *)
Definition snapshot_except (env : Env) (e : exn) : M Conn unit :=
  liftW (logging ERROR ("Error capturing snapshot: " +:+ exn_str e));;
  send_response env 500;;
  end_headers;;
  wfile_write (latin1 "Failed to save snapshot.").

Definition do_GET (g : Globals) (env : Env) (path : string) : M Conn outcome :=
  if String.eqb path "/" then
    send_response env 301;;
    send_header "Location" "/index.html";;
    end_headers;;
    mret Returned
  else if String.eqb path "/index.html" then
    let content := utf8_encode (HTML_TEMPLATE g) in
    send_response env 200;;
    send_header "Content-Type" "text/html";;
    send_header "Content-Length" (str_of_nat (length content));;
    end_headers;;
    wfile_write content;;
    mret Returned
  else if String.eqb path "/stream.mjpg" then
    send_response env 200;;
    send_header "Age" (str_of_nat 0);;
    send_header "Cache-Control" "no-cache, private";;
    send_header "Pragma" "no-cache";;
    send_header "Content-Type" "multipart/x-mixed-replace; boundary=FRAME";;
    end_headers;;
    mret EnterLoop
  else if String.eqb path "/snapshot" then
    try_except (snapshot_try g env) (fun e => Some (snapshot_except env e));;
    mret Returned
  else
    send_error env 404;;
    end_headers;;
    mret Returned.

(** One turn of the streaming loop after [frame = output.frame]: the writes
    of lines 72-77.  [len(frame)] raises [TypeError] on [None]. *)
Definition stream_part (frame : option bytes) : M Conn unit :=
  wfile_write (latin1 ("--FRAME" +:+ CRLF));;
  send_header "Content-Type" "image/jpeg";;
  match frame with
  | None => raise (TypeError "object of type 'NoneType' has no len()")
  | Some f =>
      send_header "Content-Length" (str_of_nat (length f));;
      end_headers;;
      wfile_write f;;
      wfile_write (latin1 CRLF)
  end.

(** The two [except] clauses around the loop; either ends [do_GET]. *)
Definition stream_except (env : Env) (e : exn) : M Conn unit :=
  match e with
  | BrokenPipeError | ConnectionResetError =>
      liftW (logging WARNING ("Removed streaming client " +:+
                              client_address env +:+ ": Client disconnected."))
  | _ =>
      liftW (logging WARNING ("Removed streaming client " +:+
                              client_address env +:+ ": " +:+ exn_str e))
  end.

(** ** Startup: [get_local_ip] and the [--flip] flag *)

(** What the three socket calls of [get_local_ip] do: creating the UDP
    socket, [connect], and [getsockname()] with its (address, port). *)
Record Net : Type := mkNet {
  socket_fault : option exn;
  connect_fault : option exn;
  getsockname : Result (string * nat)
}.

Definition net_call {S} (fault : option exn) : M S unit :=
  match fault with
  | Some e => raise e
  | None => mret tt
  end.

Definition get_local_ip (net : Net) : M World string :=
  try_except
    (net_call (socket_fault net);;
     net_call (connect_fault net);;
     match getsockname net with
     | Ok a => mret (fst a)
     | Raise e => raise e
     end)
    (fun _ => Some (mret "127.0.0.1")).

(** [libcamera.Transform(hflip=..., vflip=...)]. *)
Record Transform : Type := mkTransform {
  hflip : bool;
  vflip : bool
}.

Definition flip_choices : list string := ["none"; "h"; "v"; "hv"].

(** [parser.parse_args()] for the one flag: [None] when [--flip] is not on
    the command line, otherwise its argument; a value outside [choices]
    makes argparse exit, here [None] as the result. *)
Definition parse_args (flip_arg : option string) : option string :=
  match flip_arg with
  | None => Some "none"
  | Some v => if existsb (String.eqb v) flip_choices then Some v else None
  end.

(** Line 126. *)
Definition transform_of (flip : string) : Transform :=
  mkTransform (str_in "h" flip) (str_in "v" flip).

(** ** The frame sink [StreamingOutput] *)

(** [threading.Condition]: the threads blocked in [wait()].  Its lock is
    held for the length of each [with output.condition] block; the model
    makes each such block one atomic step. *)
Record Condition : Type := mkCondition {
  waiters : list nat
}.

Record StreamingOutput : Type := mkOutput {
  frame : option bytes;
  condition : Condition
}.

(** [StreamingOutput.__init__]. *)
Definition StreamingOutput_init : StreamingOutput :=
  mkOutput None (mkCondition []).

(** [condition.notify_all()]: empties the queue and returns whom it woke. *)
Definition notify_all (c : Condition) : Condition * list nat :=
  (mkCondition [], waiters c).

(** [StreamingOutput.write(buf)]. *)
Definition write (out : StreamingOutput) (buf : bytes)
  : StreamingOutput * list nat :=
  let out1 := mkOutput (Some buf) (condition out) in
  let (c, woken) := notify_all (condition out1) in
  (mkOutput (frame out1) c, woken).

(** ** Threads and their interleaving *)

(** Where a handler thread stands: at the top of [while True], blocked in
    [condition.wait()], notified and about to retake the lock, past
    [frame = output.frame], or out of [do_GET]. *)
Inductive pc : Type := AtLoop | InWait | Woken | GotFrame | Finished.

#[global] Instance pc_eq_dec : EqDecision pc.
Proof. solve_decision. Defined.

(** One handler thread: its request path and surroundings, its local
    variable [frame], and its connection. *)
Record Thread : Type := mkThread {
  t_path : string;
  t_env : Env;
  t_pc : pc;
  t_frame : option bytes;
  t_hdl : Handler
}.

Definition set_pc (p : pc) (t : Thread) : Thread :=
  mkThread (t_path t) (t_env t) p (t_frame t) (t_hdl t).

(** The process: the global [output], the handler threads in the order the
    server started them, and the world. *)
Record System : Type := mkSystem {
  output : StreamingOutput;
  threads : list Thread;
  sys_world : World
}.

Definition init (w : World) : System := mkSystem StreamingOutput_init [] w.

Inductive Event : Type :=
| Publish (buf : bytes)
    (* the encoder thread calls output.write(buf) *)
| Request (env : Env) (path : string)
    (* a connection is accepted; its thread runs do_GET to its return or to the loop *)
| EnterWait (i : nat)
    (* thread i enters `with output.condition` and blocks in wait() *)
| Wake (i : nat)
    (* thread i, notified, retakes the lock, reads output.frame, leaves the block *)
| Send (i : nat)
    (* thread i writes the part for its frame *)
| Disconnect (i : nat).
    (* the peer of thread i closes the connection *)

(** Lines 72-77 inside the [try], with the [except] clauses: [true] when the
    loop goes round again. *)
Definition stream_turn (env : Env) (fr : option bytes) : M Conn bool :=
  try_except (stream_part fr;; mret true)
    (fun e => Some (stream_except env e;; mret false)).

Definition publish (s : System) (buf : bytes) : System :=
  let (out, woken) := write (output s) buf in
  mkSystem out
    (imap (fun i t => if bool_decide (i ∈ woken) then set_pc Woken t else t)
       (threads s))
    (sys_world s).

Definition request (g : Globals) (s : System) (env : Env) (path : string)
  : System :=
  let (r, c) := do_GET g env path (mkConn new_handler (sys_world s)) in
  let p := match r with Ok EnterLoop => AtLoop | _ => Finished end in
  mkSystem (output s) (threads s ++ [mkThread path env p None (hdl c)])
    (world c).

Definition enter_wait (s : System) (i : nat) : option System :=
  t ← threads s !! i;
  if decide (t_pc t = AtLoop) then
    Some (mkSystem
            (mkOutput (frame (output s))
               (mkCondition (waiters (condition (output s)) ++ [i])))
            (<[i := set_pc InWait t]> (threads s))
            (sys_world s))
  else None.

Definition wake (s : System) (i : nat) : option System :=
  t ← threads s !! i;
  if decide (t_pc t = Woken) then
    Some (mkSystem (output s)
            (<[i := mkThread (t_path t) (t_env t) GotFrame (frame (output s))
                      (t_hdl t)]> (threads s))
            (sys_world s))
  else None.

Definition send (s : System) (i : nat) : option System :=
  t ← threads s !! i;
  if decide (t_pc t = GotFrame) then
    let (r, c) := stream_turn (t_env t) (t_frame t)
                    (mkConn (t_hdl t) (sys_world s)) in
    let p := match r with Ok true => AtLoop | _ => Finished end in
    Some (mkSystem (output s)
            (<[i := mkThread (t_path t) (t_env t) p (t_frame t) (hdl c)]>
               (threads s))
            (world c))
  else None.

Definition disconnect (s : System) (i : nat) : option System :=
  t ← threads s !! i;
  Some (mkSystem (output s)
          (<[i := mkThread (t_path t) (t_env t) (t_pc t) (t_frame t)
                    (mkHandler (headers_buffer (t_hdl t)) (wfile (t_hdl t))
                       false)]> (threads s))
          (sys_world s)).

(** One step of the process; [None] when the event is not enabled. *)
Definition step (g : Globals) (s : System) (e : Event) : option System :=
  match e with
  | Publish buf => Some (publish s buf)
  | Request env path => Some (request g s env path)
  | EnterWait i => enter_wait s i
  | Wake i => wake s i
  | Send i => send s i
  | Disconnect i => disconnect s i
  end.

(** A history lists the events of a run, the most recent first. *)
Fixpoint run (g : Globals) (s0 : System) (h : list Event) : option System :=
  match h with
  | [] => Some s0
  | e :: h' => s ← run g s0 h'; step g s e
  end.

(** The frames published along a history, the most recent first, and the
    generation: how many there were. *)
Fixpoint publishes (h : list Event) : list bytes :=
  match h with
  | [] => []
  | Publish buf :: h' => buf :: publishes h'
  | _ :: h' => publishes h'
  end.

Definition generation (h : list Event) : nat := length (publishes h).

(** The generation thread [i] last saw: the one current at its latest
    [frame = output.frame], 0 if it has read none. *)
Fixpoint last_seen (i : nat) (h : list Event) : nat :=
  match h with
  | [] => 0
  | Wake j :: h' => if decide (i = j) then generation h' else last_seen i h'
  | _ :: h' => last_seen i h'
  end.

(** ** The response bytes, as the specification words them *)

(** The head of the stream response. *)
Definition stream_head (env : Env) : bytes :=
  latin1 (status_line 200) ++
  latin1 (header_line "Server" (version_string env)) ++
  latin1 (header_line "Date" (date_time_string env)) ++
  latin1 (header_line "Age" "0") ++
  latin1 (header_line "Cache-Control" "no-cache, private") ++
  latin1 (header_line "Pragma" "no-cache") ++
  latin1 (header_line "Content-Type" "multipart/x-mixed-replace; boundary=FRAME") ++
  latin1 CRLF.

(** One part of the stream: boundary, two headers, blank line, the frame,
    and a closing CRLF. *)
Definition mjpeg_part (f : bytes) : bytes :=
  latin1 ("--FRAME" +:+ CRLF) ++
  latin1 (header_line "Content-Type" "image/jpeg") ++
  latin1 (header_line "Content-Length" (str_of_nat (length f))) ++
  latin1 CRLF ++
  f ++
  latin1 CRLF.

(** A status line with the two headers the library adds, an optional
    further header block, the blank line, and a body. *)
Definition plain_response (env : Env) (code : nat) (headers : string)
    (body : bytes) : bytes :=
  latin1 (status_line code) ++
  latin1 (header_line "Server" (version_string env)) ++
  latin1 (header_line "Date" (date_time_string env)) ++
  latin1 headers ++
  latin1 CRLF ++
  body.

(** ** Running one request *)

(** [do_GET] on the handler of a freshly accepted connection. *)
Definition serve (g : Globals) (env : Env) (path : string) (w : World)
  : Result outcome * Conn :=
  do_GET g env path (mkConn new_handler w).

(** The bytes a request puts on the wire. *)
Definition wire (g : Globals) (env : Env) (path : string) (w : World) : bytes :=
  wfile (hdl (snd (serve g env path w))).

Definition template_path (base : string) : string :=
  path_join (path_join base "template") "index.html".

Definition snapshot_path (g : Globals) (env : Env) : string :=
  path_join (path_join (BASE_DIR g) "snapshots")
    ("snapshot_" +:+ now env +:+ ".jpg").

(** The error, if any, that the [try] block of the snapshot route meets
    before it answers. *)
Definition snapshot_error (env : Env) : option exn :=
  match makedirs_fault env with
  | Some e => Some e
  | None => capture_fault env
  end.

(** ** Responses and world updates named in the statements *)

Definition index_headers (body : bytes) : string :=
  header_line "Content-Type" "text/html" +:+
  header_line "Content-Length" (str_of_nat (length body)).

(** The headers [send_error] adds to a 404. *)
Definition not_found_headers (env : Env) : string :=
  header_line "Connection" "close" +:+
  header_line "Content-Type" "text/html;charset=utf-8" +:+
  header_line "Content-Length" (str_of_nat (length (error_body env))).

Definition saved_response (env : Env) : bytes :=
  plain_response env 200 "" (latin1 "Snapshot saved.").

Definition failed_response (env : Env) : bytes :=
  plain_response env 500 "" (latin1 "Failed to save snapshot.").

(** The fallback page as bytes. *)
Definition fallback_body : bytes :=
  latin1 "<html><body><h1>Error: Template not found.</h1></body></html>".

(** The world with one more log record. *)
Definition log_add (w : World) (l : level) (msg : string) : World :=
  mkWorld (fs w) (log w ++ [(l, msg)]) (opened w) (made_dirs w)
    (capture_calls w) (snapshots w).

(** The world after one more [open]. *)
Definition opened_add (w : World) (path : string) : World :=
  mkWorld (fs w) (log w) (opened w ++ [path]) (made_dirs w)
    (capture_calls w) (snapshots w).

(** The world after [os.makedirs] went through and [capture_file] was
    called on [file]; [written] tells whether the file came out. *)
Definition captured (w : World) (dir file : string) (written : bool) : World :=
  mkWorld (fs w) (log w) (opened w) (made_dirs w ++ [dir])
    (capture_calls w ++ [file])
    (if written then snapshots w ++ [file] else snapshots w).

(** The class test of [except FileNotFoundError]. *)
Definition is_not_found (e : exn) : bool :=
  match e with FileNotFoundError _ => true | _ => false end.

(** ** The invariant of the running process *)

(** An event that is neither a publish nor a read of thread [i] changes
    neither the generation nor what [i] last saw. *)
Definition quiet_for (i : nat) (e : Event) : Prop :=
  match e with
  | Publish _ => False
  | Wake j => i <> j
  | _ => True
  end.

(** What holds of thread [i] after history [h]: a notified thread has a
    publish it has not read yet; the frame it holds was published; past the
    read it holds a frame; its header buffer is empty while it loops; while
    it waits it is queued on the condition; and a stream connection carries
    the response head followed by whole parts of published frames. *)
Record thread_ok (h : list Event) (out : StreamingOutput) (i : nat)
    (t : Thread) : Prop := mk_thread_ok {
  ok_woken : t_pc t = Woken -> last_seen i h < generation h;
  ok_frame : forall f, t_frame t = Some f -> f ∈ publishes h;
  ok_got : t_pc t = GotFrame -> is_Some (t_frame t);
  ok_buffer : t_pc t <> Finished -> headers_buffer (t_hdl t) = [];
  ok_wait : t_pc t = InWait -> i ∈ waiters (condition out);
  ok_wire :
    t_path t = "/stream.mjpg" ->
    exists fs,
      wfile (t_hdl t) = stream_head (t_env t) ++ flat_map mjpeg_part fs /\
      forall f, f ∈ fs -> f ∈ publishes h
}.

(** The sink holds the latest published frame, only waiting threads are
    queued on the condition, and every thread is in order. *)
Record Inv (h : list Event) (s : System) : Prop := mk_Inv {
  inv_frame : frame (output s) = head (publishes h);
  inv_waiters :
    forall i, i ∈ waiters (condition (output s)) ->
              exists t, threads s !! i = Some t /\ t_pc t = InWait;
  inv_threads :
    forall i t, threads s !! i = Some t -> thread_ok h (output s) i t
}.

(** Thread [t'] is [t] still short of a notification: at the loop or in the
    wait, with the same [frame] and the same bytes sent. *)
Definition blocked (t t' : Thread) : Prop :=
  (t_pc t' = AtLoop \/ t_pc t' = InWait) /\
  t_frame t' = t_frame t /\
  wfile (t_hdl t') = wfile (t_hdl t).

(** Where a reader [t], waiting when two frames were published in a row,
    can stand afterwards as long as no further frame is published: notified
    and not yet running, holding the second frame, having sent it, or
    removed because its peer had gone. *)
Definition holds_latest (t : Thread) (F2 : bytes) (t' : Thread) : Prop :=
  (t_pc t' = Woken /\ t_frame t' = t_frame t /\
   headers_buffer (t_hdl t') = [] /\ wfile (t_hdl t') = wfile (t_hdl t)) \/
  (t_pc t' = GotFrame /\ t_frame t' = Some F2 /\
   headers_buffer (t_hdl t') = [] /\ wfile (t_hdl t') = wfile (t_hdl t)) \/
  ((t_pc t' = AtLoop \/ t_pc t' = InWait) /\ t_frame t' = Some F2 /\
   wfile (t_hdl t') = wfile (t_hdl t) ++ mjpeg_part F2) \/
  (t_pc t' = Finished /\ t_frame t' = Some F2 /\
   wfile (t_hdl t') = wfile (t_hdl t)).

(** ** Sample data *)

Definition sample_env : Env :=
  mkEnv "BaseHTTP/0.6 Python/3.11.2" "Mon, 01 Jan 2024 00:00:00 GMT"
    (latin1 "<html><body>Not Found</body></html>") "('192.168.1.20', 51234)"
    "20240101_000000" None None.

Definition sample_world : World := mkWorld ∅ [] [] [] [] [].

Definition sample_globals : Globals :=
  mkGlobals "/home/pi/camera_web" fallback_template.

(** A minimal JPEG: start-of-image and end-of-image markers. *)
Definition jpeg1 : bytes := ["255"; "216"; "255"; "217"]%byte.
Definition jpeg2 : bytes := ["255"; "216"; "000"; "255"; "217"]%byte.

(** A reader attaches, waits, and a frame is published. *)
Definition sample_history : list Event :=
  [Publish jpeg1; EnterWait 0; Request sample_env "/stream.mjpg"].

(** A reader attaches when the sink already holds a frame. *)
Definition attach_history : list Event :=
  [Request sample_env "/stream.mjpg"; Publish jpeg1].

Definition attached_state : System :=
  request sample_globals (publish (init sample_world) jpeg1) sample_env
    "/stream.mjpg".

(** A reader waiting on the condition, no frame published yet. *)
Definition waiting_history : list Event :=
  [EnterWait 0; Request sample_env "/stream.mjpg"].

Definition waiting_thread : Thread :=
  mkThread "/stream.mjpg" sample_env InWait None
    (mkHandler [] (stream_head sample_env) true).

Definition waiting_state : System :=
  mkSystem (mkOutput None (mkCondition [0])) [waiting_thread] sample_world.

(** A reader that has just read its first frame and is about to send it. *)
Definition delivered_history : list Event :=
  [Wake 0; Publish jpeg1; EnterWait 0; Request sample_env "/stream.mjpg"].

Definition delivering_thread : Thread :=
  mkThread "/stream.mjpg" sample_env GotFrame (Some jpeg1)
    (mkHandler [] (stream_head sample_env) true).

Definition delivering_state : System :=
  mkSystem (mkOutput (Some jpeg1) (mkCondition [])) [delivering_thread]
    sample_world.

(** ** The routing table and further sample data *)

(** The four paths [do_GET] compares [self.path] with. *)
Definition routes : list string :=
  ["/"; "/index.html"; "/stream.mjpg"; "/snapshot"].

(** A template with text outside ASCII: "<h1>" followed by U+041A U+0430
    U+043C and U+20AC. *)
Definition sample_template : text :=
  text_of_string "<h1>" ++ [1050; 1072; 1084; 8364]%N.

Definition templated_world : World :=
  mkWorld {[ "/home/pi/camera_web/template/index.html" := Ok sample_template ]}
    [] [] [] [] [].

Definition locked_world : World :=
  mkWorld {[ "/home/pi/camera_web/template/index.html" :=
               Raise (OSError "[Errno 13] Permission denied") ]}
    [] [] [] [] [].


(** The handler thread an event belongs to, if any. *)
Definition actor (e : Event) : option nat :=
  match e with
  | EnterWait i | Wake i | Send i | Disconnect i => Some i
  | Publish _ | Request _ _ => None
  end.

(** The removal notice of the first [except] clause of the loop. *)
Definition removal_notice (env : Env) : string :=
  "Removed streaming client " +:+ client_address env +:+
  ": Client disconnected.".

(** A reader back at the top of the loop after its first delivery. *)
Definition looping_thread : Thread :=
  mkThread "/stream.mjpg" sample_env AtLoop (Some jpeg1)
    (mkHandler [] (stream_head sample_env ++ mjpeg_part jpeg1) true).

Definition looping_state : System :=
  mkSystem (mkOutput (Some jpeg1) (mkCondition [])) [looping_thread]
    sample_world.

Definition looping_history : list Event :=
  Send 0 :: delivered_history.

(** The same reader, its peer gone before the frame it holds is sent. *)
Definition orphaned_thread : Thread :=
  mkThread "/stream.mjpg" sample_env GotFrame (Some jpeg1)
    (mkHandler [] (stream_head sample_env) false).


Definition orphaned_history : list Event :=
  Disconnect 0 :: delivered_history.


(** Thread [t'] is [t] but for the state of its connection's peer. *)
Definition same_but_peer (t t' : Thread) : Prop :=
  t_path t' = t_path t /\ t_env t' = t_env t /\ t_pc t' = t_pc t /\
  t_frame t' = t_frame t /\
  headers_buffer (t_hdl t') = headers_buffer (t_hdl t) /\
  wfile (t_hdl t') = wfile (t_hdl t).


(** The thread a stream request starts and the one any other request
    leaves behind. *)
Definition started_thread (g : Globals) (s : System) (env : Env)
    (path : string) : Thread :=
  if String.eqb path "/stream.mjpg"
  then mkThread path env AtLoop None (mkHandler [] (stream_head env) true)
  else mkThread path env Finished None
         (hdl (snd (serve g env path (sys_world s)))).

(** How one event of the running process moves thread [i], in state [t]
    before it. *)
Inductive thread_move (s : System) (i : nat) (t : Thread)
  : Event -> Thread -> Prop :=
| move_none e :
    publishes [e] = [] -> actor e <> Some i -> thread_move s i t e t
| move_publish buf :
    thread_move s i t (Publish buf)
      (if decide (t_pc t = InWait) then set_pc Woken t else t)
| move_enter :
    t_pc t = AtLoop -> thread_move s i t (EnterWait i) (set_pc InWait t)
| move_wake f :
    t_pc t = Woken -> frame (output s) = Some f ->
    thread_move s i t (Wake i)
      (mkThread (t_path t) (t_env t) GotFrame (Some f) (t_hdl t))
| move_send_live f :
    t_pc t = GotFrame -> t_frame t = Some f -> connected (t_hdl t) = true ->
    thread_move s i t (Send i)
      (mkThread (t_path t) (t_env t) AtLoop (Some f)
         (mkHandler [] (wfile (t_hdl t) ++ mjpeg_part f) true))
| move_send_dead f :
    t_pc t = GotFrame -> t_frame t = Some f -> connected (t_hdl t) = false ->
    thread_move s i t (Send i)
      (mkThread (t_path t) (t_env t) Finished (Some f) (t_hdl t))
| move_disconnect :
    thread_move s i t (Disconnect i)
      (mkThread (t_path t) (t_env t) (t_pc t) (t_frame t)
         (mkHandler (headers_buffer (t_hdl t)) (wfile (t_hdl t)) false)).

(** The frame a thread has read and not sent yet. *)
Definition pending (t : Thread) : list bytes :=
  match t_pc t, t_frame t with
  | GotFrame, Some f => [f]
  | _, _ => []
  end.

(** The frames of a stream connection, sent or read, are an in-order
    selection of the frames published up to the thread's last read. *)
Definition ordered_wire (h : list Event) (i : nat) (t : Thread) : Prop :=
  t_path t = "/stream.mjpg" ->
  exists fs,
    wfile (t_hdl t) = stream_head (t_env t) ++ flat_map mjpeg_part fs /\
    sublist (fs ++ pending t) (take (last_seen i h) (rev (publishes h))).

(** Two readers; the first has been sent two frames, the second attached
    late and has been sent the second frame only. *)
Definition two_readers_history : list Event :=
  [Send 1; Wake 1; Send 0; Wake 0; Publish jpeg2; EnterWait 1; EnterWait 0;
   Request sample_env "/stream.mjpg";
   Send 0; Wake 0; Publish jpeg1; EnterWait 0;
   Request sample_env "/stream.mjpg"].

Definition two_readers_state : System :=
  mkSystem (mkOutput (Some jpeg2) (mkCondition []))
    [mkThread "/stream.mjpg" sample_env AtLoop (Some jpeg2)
       (mkHandler []
          ((stream_head sample_env ++ mjpeg_part jpeg1) ++ mjpeg_part jpeg2)
          true);
     mkThread "/stream.mjpg" sample_env AtLoop (Some jpeg2)
       (mkHandler [] (stream_head sample_env ++ mjpeg_part jpeg2) true)]
    sample_world.

(** A run with a finished one-shot request beside a waiting reader. *)
Definition mixed_history : list Event :=
  [Request sample_env "/index.html"; EnterWait 0;
   Request sample_env "/stream.mjpg"].


Definition index_thread : Thread :=
  mkThread "/index.html" sample_env Finished None
    (mkHandler []
       (plain_response sample_env 200 (index_headers fallback_body)
          fallback_body) true).

Definition mixed_state : System :=
  mkSystem (mkOutput None (mkCondition [0])) [waiting_thread; index_thread]
    sample_world.


(** ** The startup block ([if __name__ == '__main__']) *)

(** The calls made on the camera, in order. *)
Inductive camera_call : Type :=
| Picamera2_new
| create_video_configuration (width height : N) (tr : Transform)
| configure
| start_recording
| stop_recording.

(** What can end the startup block: an exception, an interrupt from the
    keyboard, or the exit argparse takes on a rejected command line. *)
Inductive signal : Type :=
| Exception (e : exn)
| KeyboardInterrupt
| SystemExit (code : nat).

(** What the startup block finds: the argument of [--flip] if any, whether
    [Picamera2()] or [start_recording] fail,
    the network as [get_local_ip] sees it, whether binding the server
    fails, and what ends [serve_forever] (it does not return by itself). *)
Record Boot : Type := mkBoot {
  flip_arg : option string;
  camera_fault : option exn;
  recording_fault : option exn;
  boot_net : Net;
  bind_fault : option exn;
  serve_end : signal
}.

(** The process as the startup block changes it: the world, the calls made
    on the camera, and the address the server listens on once bound. *)
Record Proc : Type := mkProc {
  p_world : World;
  camera_calls : list camera_call;
  listening : option (string * N)
}.

Definition cam (p : Proc) (c : camera_call) : Proc :=
  mkProc (p_world p) (camera_calls p ++ [c]) (listening p).

(** The body of the [try]: lines 138-142. *)
Definition server_block (b : Boot) (p : Proc) : signal * Proc :=
  let (r, w) := get_local_ip (boot_net b) (p_world p) in
  let p1 := mkProc w (camera_calls p) (listening p) in
  match r with
  | Raise e => (Exception e, p1)
  | Ok local_ip =>
      match bind_fault b with
      | Some e => (Exception e, p1)
      | None =>
          let (_, w') :=
            logging INFO ("Server started on http://" +:+ local_ip +:+ ":8000")
              w in
          (serve_end b, mkProc w' (camera_calls p) (Some ("", 8000%N)))
      end
  end.

(** Lines 121-145; [logging.basicConfig] (line 119) is not modelled. *)
Definition main (b : Boot) (p : Proc) : signal * Proc :=
  match parse_args (flip_arg b) with
  | None => (SystemExit 2, p)
  | Some flip =>
      let transform := transform_of flip in
      let p1 := cam p Picamera2_new in
      match camera_fault b with
      | Some e => (Exception e, p1)
      | None =>
          let p2 :=
            cam (cam p1 (create_video_configuration 640 480 transform)%N)
              configure in
          let p3 := cam p2 start_recording in
          match recording_fault b with
          | Some e => (Exception e, p3)
          | None =>
              let (r, p4) := server_block b p3 in
              (r, cam p4 stop_recording)
          end
      end
  end.

(** What ends the block before its [try], if anything does. *)
Definition early_exit (b : Boot) : option signal :=
  match parse_args (flip_arg b) with
  | None => Some (SystemExit 2)
  | Some _ =>
      match camera_fault b with
      | Some e => Some (Exception e)
      | None =>
          match recording_fault b with
          | Some e => Some (Exception e)
          | None => None
          end
      end
  end.

Definition sample_net : Net := mkNet None None (Ok ("192.168.1.10", 4242)).

Definition sample_boot : Boot :=
  mkBoot (Some "hv") None None sample_net None KeyboardInterrupt.

Definition sample_proc : Proc := mkProc sample_world [] None.

(** How many times thread [i] has sent along a history. *)
Fixpoint sends (i : nat) (h : list Event) : nat :=
  match h with
  | [] => 0
  | Send j :: h' => (if decide (i = j) then 1 else 0) + sends i h'
  | _ :: h' => sends i h'
  end.

(** A stream connection carries the response head and then one whole part
    for each send of its loop, each of a published frame. *)
Definition counted_wire (h : list Event) (i : nat) (t : Thread) : Prop :=
  t_path t = "/stream.mjpg" ->
  exists fs,
    wfile (t_hdl t) = stream_head (t_env t) ++ flat_map mjpeg_part fs /\
    (forall f, f ∈ fs -> f ∈ publishes h) /\
    (t_pc t <> Finished -> length fs = sends i h).

(** The text module load binds [HTML_TEMPLATE] to when it succeeds: the
    content of the template file in the world it runs in, or the fallback
    page. *)
Definition loaded_text (base : string) (w0 : World) : text :=
  match fs w0 !! template_path base with
  | Some (Ok t) => t
  | _ => fallback_template
  end.

(** * Proofs *)

(** ** Tools *)

(** Evaluates the monad and the handler primitives, leaving the formatting
    functions and the appends of byte strings folded. *)
Ltac run_M :=
  lazy beta iota zeta delta
    [wire serve do_GET snapshot_try snapshot_except send_error stream_part
     stream_turn stream_except send_response send_response_only send_header
     end_headers flush_headers buffer_append buffer_clear wfile_write liftW
     os_makedirs capture_file logging gets modify raise try_except
     mbind M_bind bind mret M_ret ret list_append concat
     hdl world headers_buffer wfile connected new_handler fst snd
     String.eqb Ascii.eqb Bool.eqb andb];
  rewrite ?app_nil_l, ?app_nil_r, <- ?app_assoc.

Lemma latin1_app (a b : string) : latin1 (a +:+ b) = latin1 a ++ latin1 b.
Proof.
  unfold latin1, list_byte_of_string.
  induction a as [|c a IH]; [reflexivity|].
  change (byte_of_ascii c :: map byte_of_ascii (list_ascii_of_string (a +:+ b)) =
          byte_of_ascii c :: (map byte_of_ascii (list_ascii_of_string a) ++
                              map byte_of_ascii (list_ascii_of_string b))).
  f_equal. exact IH.
Qed.

(** ** The routes that answer at once *)

Lemma serve_root g env w :
  serve g env "/" w =
  (Ok Returned,
   mkConn (mkHandler []
             (plain_response env 301 (header_line "Location" "/index.html") [])
             true) w).
Proof. unfold plain_response. run_M. reflexivity. Qed.

Lemma serve_index g env w :
  serve g env "/index.html" w =
  (Ok Returned,
   mkConn (mkHandler []
             (plain_response env 200
                (index_headers (utf8_encode (HTML_TEMPLATE g)))
                (utf8_encode (HTML_TEMPLATE g)))
             true) w).
Proof.
  unfold plain_response, index_headers. rewrite latin1_app. run_M.
  reflexivity.
Qed.

(** The fall-through branch: [send_error(404)], then the branch's own
    [end_headers()], which puts one more CRLF after the error page. *)
Lemma do_GET_not_found g env path w :
  String.eqb path "/" = false ->
  String.eqb path "/index.html" = false ->
  String.eqb path "/stream.mjpg" = false ->
  String.eqb path "/snapshot" = false ->
  serve g env path w =
  (Ok Returned,
   mkConn (mkHandler []
             (plain_response env 404 (not_found_headers env)
                (error_body env ++ latin1 CRLF))
             true) w).
Proof.
  intros H1 H2 H3 H4. unfold serve, do_GET. rewrite H1, H2, H3, H4.
  unfold plain_response, not_found_headers. rewrite !latin1_app.
  run_M.
  destruct (error_body env) as [|b body] eqn:E; run_M; reflexivity.
Qed.

(** C5, as stated, fails: a query string after the root path takes the
    request out of the [== '/'] comparison and it is answered 404. *)
Lemma root_with_query_not_redirected :
  wire sample_globals sample_env "/?a=1" sample_world <>
    plain_response sample_env 301 (header_line "Location" "/index.html") [] /\
  take (length (latin1 (status_line 404)))
    (wire sample_globals sample_env "/?a=1" sample_world) =
    latin1 (status_line 404).
Proof.
  split.
  - intros H. vm_compute in H. discriminate H.
  - vm_compute. reflexivity.
Qed.

(** C5 (amended): a GET whose path is exactly [/] is answered 301 with
    [Location: /index.html]; a root path followed by a query string is not
    matched by the routing comparison and is answered 404. *)
Theorem root_redirect_exact_match_only (g : Globals) (env : Env) (w : World) :
  wire g env "/" w =
    plain_response env 301 (header_line "Location" "/index.html") [] /\
  forall query : string,
    wire g env ("/?" +:+ query) w =
      plain_response env 404 (not_found_headers env)
        (error_body env ++ latin1 CRLF).
Proof.
  split.
  - unfold wire. rewrite serve_root. reflexivity.
  - intros query. unfold wire.
    rewrite do_GET_not_found; reflexivity.
Qed.

(** ** The snapshot route *)

Lemma saved_not_failed env : saved_response env <> failed_response env.
Proof.
  unfold saved_response, failed_response, plain_response.
  intros H. vm_compute in H. discriminate H.
Qed.

Lemma serve_snapshot g env w :
  serve g env "/snapshot" w =
    match makedirs_fault env, capture_fault env with
    | None, None =>
        (Ok Returned,
         mkConn (mkHandler [] (saved_response env) true)
           (log_add (captured w (dirname (snapshot_path g env))
                       (snapshot_path g env) true) INFO
              ("Snapshot saved to " +:+ snapshot_path g env)))
    | None, Some e =>
        (Ok Returned,
         mkConn (mkHandler [] (failed_response env) true)
           (log_add (captured w (dirname (snapshot_path g env))
                       (snapshot_path g env) false) ERROR
              ("Error capturing snapshot: " +:+ exn_str e)))
    | Some e, _ =>
        (Ok Returned,
         mkConn (mkHandler [] (failed_response env) true)
           (log_add w ERROR ("Error capturing snapshot: " +:+ exn_str e)))
    end.
Proof.
  unfold saved_response, failed_response, plain_response, log_add, captured,
    snapshot_path.
  change (latin1 "") with (@nil byte).
  destruct (makedirs_fault env) as [e1|] eqn:E1;
    [|destruct (capture_fault env) as [e2|] eqn:E2];
    run_M; rewrite E1; run_M; try (rewrite E2; run_M); reflexivity.
Qed.

(** C6: a GET /snapshot runs the capture once, inside the request; it
    answers 200 with body "Snapshot saved." exactly when neither
    [os.makedirs] nor [capture_file] raised, and otherwise 500 with body
    "Failed to save snapshot.", one ERROR record carrying the error, and no
    second capture call; the sink and the threads already running are
    left as they were. *)
Theorem snapshot_route (g : Globals) (env : Env) (w : World) (s : System) :
  let file := snapshot_path g env in
  let dir := dirname file in
  serve g env "/snapshot" w =
    match makedirs_fault env, capture_fault env with
    | None, None =>
        (Ok Returned,
         mkConn (mkHandler [] (saved_response env) true)
           (log_add (captured w dir file true) INFO
              ("Snapshot saved to " +:+ file)))
    | None, Some e =>
        (Ok Returned,
         mkConn (mkHandler [] (failed_response env) true)
           (log_add (captured w dir file false) ERROR
              ("Error capturing snapshot: " +:+ exn_str e)))
    | Some e, _ =>
        (Ok Returned,
         mkConn (mkHandler [] (failed_response env) true)
           (log_add w ERROR ("Error capturing snapshot: " +:+ exn_str e)))
    end /\
  (wire g env "/snapshot" w = saved_response env <->
   snapshot_error env = None) /\
  (wire g env "/snapshot" w = failed_response env <->
   snapshot_error env <> None) /\
  output (request g s env "/snapshot") = output s /\
  take (length (threads s)) (threads (request g s env "/snapshot")) = threads s.
Proof.
  intros file dir. subst file dir.
  split; [apply serve_snapshot|].
  pose proof (saved_not_failed env) as NE.
  unfold wire, snapshot_error. rewrite serve_snapshot.
  repeat split.
  - destruct (makedirs_fault env), (capture_fault env); cbn; intros H;
      congruence.
  - destruct (makedirs_fault env), (capture_fault env); cbn; intros H;
      congruence.
  - destruct (makedirs_fault env), (capture_fault env); cbn; intros H;
      congruence.
  - destruct (makedirs_fault env), (capture_fault env); cbn; intros H;
      congruence.
  - unfold request. fold (serve g env "/snapshot" (sys_world s)).
    destruct (serve g env "/snapshot" (sys_world s)). reflexivity.
  - unfold request. fold (serve g env "/snapshot" (sys_world s)).
    destruct (serve g env "/snapshot" (sys_world s)). cbn [threads].
    rewrite take_app_length. reflexivity.
Qed.

(** ** The template *)

Lemma load_html_template_missing base w :
  fs w !! template_path base = None ->
  load_html_template base "index.html" w =
  (Ok fallback_template,
   log_add (opened_add w (template_path base)) ERROR
     ("HTML template file '" +:+ template_path base +:+ "' not found.")).
Proof.
  intros E. unfold load_html_template, try_except, open_read.
  fold (template_path base). rewrite E. reflexivity.
Qed.

Lemma load_html_template_present base w t :
  fs w !! template_path base = Some (Ok t) ->
  load_html_template base "index.html" w =
  (Ok t, opened_add w (template_path base)).
Proof.
  intros E. unfold load_html_template, try_except, open_read.
  fold (template_path base). rewrite E. reflexivity.
Qed.

Lemma load_html_template_unreadable base w e :
  fs w !! template_path base = Some (Raise e) ->
  is_not_found e = false ->
  load_html_template base "index.html" w =
  (Raise e, opened_add w (template_path base)).
Proof.
  intros E N. unfold load_html_template, try_except, open_read.
  fold (template_path base). rewrite E.
  destruct e; try reflexivity. discriminate N.
Qed.

(** C7: with the template file missing, loading returns the fixed fallback
    page and logs one ERROR record instead of raising, so module load
    completes, and GET /index.html then serves that fallback page. *)
Theorem missing_template_falls_back (base : string) (w : World) :
  fs w !! template_path base = None ->
  load_html_template base "index.html" w =
    (Ok fallback_template,
     log_add (opened_add w (template_path base)) ERROR
       ("HTML template file '" +:+ template_path base +:+ "' not found.")) /\
  fst (module_load base w) = Ok (mkGlobals base fallback_template) /\
  forall (env : Env) (w' : World),
    wire (mkGlobals base fallback_template) env "/index.html" w' =
      plain_response env 200 (index_headers fallback_body) fallback_body.
Proof.
  intros E. split; [|split].
  - apply load_html_template_missing, E.
  - unfold module_load, mbind, M_bind, bind.
    rewrite (load_html_template_missing base w E). reflexivity.
  - intros env w'. unfold wire. rewrite serve_index. reflexivity.
Qed.

(** The sample world has no template file: the fallback is loaded. *)
Lemma missing_template_falls_back_witness :
  fs sample_world !! template_path "/home/pi/camera_web" = None /\
  fst (module_load "/home/pi/camera_web" sample_world) =
    Ok (mkGlobals "/home/pi/camera_web" fallback_template).
Proof.
  split; [reflexivity|].
  apply (missing_template_falls_back "/home/pi/camera_web" sample_world).
  reflexivity.
Defined.

(** ** No request reads a file or changes what another request is served *)

Lemma do_GET_opened g env path c :
  opened (world (snd (do_GET g env path c))) = opened (world c).
Proof.
  destruct c as [[buf out live] w]. unfold do_GET.
  destruct (String.eqb path "/");
    [|destruct (String.eqb path "/index.html");
      [|destruct (String.eqb path "/stream.mjpg");
        [|destruct (String.eqb path "/snapshot")]]].
  - destruct live; reflexivity.
  - destruct live; reflexivity.
  - destruct live; reflexivity.
  - run_M.
    destruct (makedirs_fault env), (capture_fault env), live; reflexivity.
  - run_M. destruct live; [|reflexivity].
    destruct (error_body env); reflexivity.
Qed.

(** C10: the template file is opened once, at module load, and what is read
    there (or the fallback page) is what [HTML_TEMPLATE] is bound to; no
    request opens a file, and the handler serves the constant, so every
    GET /index.html of the run carries the body and Content-Length of the
    text read at load, whatever the files on disk have become. *)
Theorem template_read_once (base : string) (w0 : World) (g : Globals) :
  opened (snd (module_load base w0)) = opened w0 ++ [template_path base] /\
  (forall env path c,
     opened (world (snd (do_GET g env path c))) = opened (world c)) /\
  (forall env w,
     serve g env "/index.html" w =
       (Ok Returned,
        mkConn (mkHandler []
                  (plain_response env 200
                     (index_headers (utf8_encode (HTML_TEMPLATE g)))
                     (utf8_encode (HTML_TEMPLATE g)))
                  true) w)) /\
  module_load base w0 =
    match fs w0 !! template_path base with
    | Some (Ok t) =>
        (Ok (mkGlobals base t), opened_add w0 (template_path base))
    | Some (Raise e) =>
        if is_not_found e
        then (Ok (mkGlobals base fallback_template),
              log_add (opened_add w0 (template_path base)) ERROR
                ("HTML template file '" +:+ template_path base +:+
                 "' not found."))
        else (Raise e, opened_add w0 (template_path base))
    | None =>
        (Ok (mkGlobals base fallback_template),
         log_add (opened_add w0 (template_path base)) ERROR
           ("HTML template file '" +:+ template_path base +:+ "' not found."))
    end /\
  (forall g1 w1,
     module_load base w0 = (Ok g1, w1) ->
     g1 = mkGlobals base (loaded_text base w0) /\
     forall env w,
       serve g1 env "/index.html" w =
         (Ok Returned,
          mkConn (mkHandler []
                    (plain_response env 200
                       (index_headers (utf8_encode (loaded_text base w0)))
                       (utf8_encode (loaded_text base w0)))
                    true) w)).
Proof.
  assert (E : module_load base w0 =
    match fs w0 !! template_path base with
    | Some (Ok t) =>
        (Ok (mkGlobals base t), opened_add w0 (template_path base))
    | Some (Raise e) =>
        if is_not_found e
        then (Ok (mkGlobals base fallback_template),
              log_add (opened_add w0 (template_path base)) ERROR
                ("HTML template file '" +:+ template_path base +:+
                 "' not found."))
        else (Raise e, opened_add w0 (template_path base))
    | None =>
        (Ok (mkGlobals base fallback_template),
         log_add (opened_add w0 (template_path base)) ERROR
           ("HTML template file '" +:+ template_path base +:+ "' not found."))
    end).
  { unfold module_load, mbind, M_bind, bind, load_html_template, try_except,
      open_read.
    fold (template_path base).
    destruct (fs w0 !! template_path base) as [[t|e]|]; try reflexivity.
    destruct e; reflexivity. }
  split; [|split; [|split; [|split]]].
  - rewrite E.
    destruct (fs w0 !! template_path base) as [[t|e]|]; try reflexivity.
    destruct (is_not_found e); reflexivity.
  - intros env path c. apply do_GET_opened.
  - intros env w. apply serve_index.
  - exact E.
  - intros g1 w1 H. rewrite E in H.
    assert (G : g1 = mkGlobals base (loaded_text base w0)).
    { unfold loaded_text.
      destruct (fs w0 !! template_path base) as [[t|e]|].
      - injection H as <- _. reflexivity.
      - destruct (is_not_found e); [|discriminate H].
        injection H as <- _. reflexivity.
      - injection H as <- _. reflexivity. }
    split; [exact G|].
    intros env w. rewrite G, serve_index. reflexivity.
Qed.

(** The template is there at load and gone when the page is requested: the
    page served is still the text read at load. *)
Lemma template_read_once_witness :
  exists g1 w1,
    module_load "/home/pi/camera_web" templated_world = (Ok g1, w1) /\
    fs sample_world !! template_path "/home/pi/camera_web" = None /\
    HTML_TEMPLATE g1 = sample_template /\
    wire g1 sample_env "/index.html" sample_world =
      plain_response sample_env 200
        (index_headers (utf8_encode sample_template))
        (utf8_encode sample_template).
Proof.
  assert (E : module_load "/home/pi/camera_web" templated_world =
              (Ok (mkGlobals "/home/pi/camera_web" sample_template),
               opened_add templated_world
                 (template_path "/home/pi/camera_web")))
    by (vm_compute; reflexivity).
  destruct (proj2 (proj2 (proj2 (proj2
              (template_read_once "/home/pi/camera_web" templated_world
                 sample_globals)))) _ _ E) as [_ Hs].
  eexists. eexists. split; [exact E|]. split; [reflexivity|].
  split; [reflexivity|].
  unfold wire. rewrite Hs. reflexivity.
Defined.

(** ** Startup helpers *)

(** C9: [get_local_ip] always returns a string and never raises: the
    address [getsockname()] reports when the three socket calls go through,
    "127.0.0.1" as soon as one of them raises. *)
Theorem get_local_ip_total (net : Net) (w : World) :
  get_local_ip net w =
    (Ok match socket_fault net, connect_fault net, getsockname net with
        | None, None, Ok a => fst a
        | _, _, _ => "127.0.0.1"
        end,
     w).
Proof.
  unfold get_local_ip, try_except, net_call, mbind, M_bind, bind, raise, mret,
    M_ret, ret.
  destruct (socket_fault net), (connect_fault net), (getsockname net);
    reflexivity.
Qed.

(** argparse accepts the four listed values and nothing else. *)
Lemma parse_args_choices v :
  parse_args (Some v) = if bool_decide (v ∈ flip_choices) then Some v else None.
Proof.
  unfold parse_args.
  destruct (existsb (String.eqb v) flip_choices) eqn:E; case_bool_decide as Hv;
    try reflexivity.
  - apply existsb_exists in E. destruct E as (x & Hin & Hx).
    apply String.eqb_eq in Hx. subst x.
    exfalso. apply Hv. apply list_elem_of_In. exact Hin.
  - apply list_elem_of_In in Hv.
    assert (existsb (String.eqb v) flip_choices = true) as E'.
    { apply existsb_exists. exists v. split; [exact Hv|apply String.eqb_refl]. }
    congruence.
Qed.

(** C8: each value of [--flip] asks for exactly its mirroring: [hv] both,
    [h] horizontal only, [v] vertical only, [none] or no flag neither. *)
Theorem flip_selects_mirroring :
  transform_of <$> parse_args (Some "hv") = Some (mkTransform true true) /\
  transform_of <$> parse_args (Some "h") = Some (mkTransform true false) /\
  transform_of <$> parse_args (Some "v") = Some (mkTransform false true) /\
  transform_of <$> parse_args (Some "none") = Some (mkTransform false false) /\
  transform_of <$> parse_args None = Some (mkTransform false false).
Proof. repeat split; reflexivity. Qed.

(** ** The stream route and one turn of its loop *)

Lemma serve_stream g env w :
  serve g env "/stream.mjpg" w =
  (Ok EnterLoop, mkConn (mkHandler [] (stream_head env) true) w).
Proof. unfold stream_head. run_M. reflexivity. Qed.

(** Only the stream route stays in [do_GET]. *)
Lemma serve_other g env path w :
  String.eqb path "/stream.mjpg" = false ->
  fst (serve g env path w) = Ok Returned.
Proof.
  intros H.
  destruct (String.eqb path "/") eqn:H1;
    [apply String.eqb_eq in H1; subst path; rewrite serve_root; reflexivity|].
  destruct (String.eqb path "/index.html") eqn:H2;
    [apply String.eqb_eq in H2; subst path; rewrite serve_index; reflexivity|].
  destruct (String.eqb path "/snapshot") eqn:H3.
  - apply String.eqb_eq in H3; subst path. rewrite serve_snapshot.
    destruct (makedirs_fault env), (capture_fault env); reflexivity.
  - rewrite do_GET_not_found by assumption. reflexivity.
Qed.

(** A turn on a live connection whose header buffer is empty appends
    exactly one part and leaves the buffer empty. *)
Lemma stream_turn_live env f out w :
  stream_turn env (Some f) (mkConn (mkHandler [] out true) w) =
  (Ok true, mkConn (mkHandler [] (out ++ mjpeg_part f) true) w).
Proof. unfold mjpeg_part. run_M. reflexivity. Qed.

(** A turn on a dead connection writes nothing, logs the removal and ends
    the loop. *)
Lemma stream_turn_dead env fr buf out w :
  stream_turn env fr (mkConn (mkHandler buf out false) w) =
  (Ok false,
   mkConn (mkHandler buf out false)
     (log_add w WARNING ("Removed streaming client " +:+ client_address env
                         +:+ ": Client disconnected."))).
Proof. unfold log_add. run_M. reflexivity. Qed.

(** ** Histories *)

Lemma run_app g s h2 h1 :
  run g s (h2 ++ h1) = run g s h1 ≫= fun s1 => run g s1 h2.
Proof.
  induction h2 as [|e h2 IH]; cbn [app run].
  - destruct (run g s h1); reflexivity.
  - rewrite IH. destruct (run g s h1); reflexivity.
Qed.

Lemma generation_publish buf h : generation (Publish buf :: h) = S (generation h).
Proof. reflexivity. Qed.

Lemma last_seen_le i h : last_seen i h <= generation h.
Proof.
  induction h as [|e h IH]; [reflexivity|].
  destruct e; cbn [last_seen]; rewrite ?generation_publish;
    try (change (generation (_ :: h)) with (generation h)); try lia.
  destruct (decide (i = i0)); lia.
Qed.

Lemma quiet_publishes i e h : quiet_for i e -> publishes (e :: h) = publishes h.
Proof. destruct e; cbn; intros H; (reflexivity || contradiction). Qed.

Lemma quiet_generation i e h : quiet_for i e -> generation (e :: h) = generation h.
Proof. intros Q. unfold generation. rewrite (quiet_publishes i e h Q). reflexivity. Qed.

Lemma quiet_last_seen i e h : quiet_for i e -> last_seen i (e :: h) = last_seen i h.
Proof.
  destruct e; cbn; intros H; try reflexivity; try contradiction.
  destruct (decide (i = i0)); [contradiction | reflexivity].
Qed.

(** ** The invariant of the running process *)

Lemma thread_ok_quiet h e out out' i t :
  quiet_for i e ->
  (t_pc t = InWait -> i ∈ waiters (condition out) ->
   i ∈ waiters (condition out')) ->
  thread_ok h out i t -> thread_ok (e :: h) out' i t.
Proof.
  intros Q W [H1 H2 H3 H4 H5 H6].
  split;
    rewrite ?(quiet_generation i e h Q), ?(quiet_publishes i e h Q),
      ?(quiet_last_seen i e h Q); auto.
Qed.

Lemma init_inv w : Inv [] (init w).
Proof.
  split; cbn.
  - reflexivity.
  - intros i H. apply elem_of_nil in H. contradiction.
  - intros i t H. rewrite lookup_nil in H. discriminate H.
Qed.

Lemma publish_inv h s buf : Inv h s -> Inv (Publish buf :: h) (publish s buf).
Proof.
  intros [F W T]. unfold publish, write, notify_all. cbn.
  split; cbn.
  - reflexivity.
  - intros i H. apply elem_of_nil in H. contradiction.
  - intros i t' H. rewrite list_lookup_imap in H.
    apply fmap_Some in H. destruct H as (t & Ht & ->).
    pose proof (T i t Ht) as [H1 H2 H3 H4 H5 H6].
    pose proof (last_seen_le i h) as LE.
    case_bool_decide as Hin.
    + destruct (W i Hin) as (t0 & Ht0 & Hpc).
      assert (t0 = t) by congruence. subst t0.
      split; cbn [t_pc t_frame t_hdl t_path t_env set_pc publishes].
      * intros _. rewrite generation_publish.
        change (last_seen i (Publish buf :: h)) with (last_seen i h). lia.
      * intros f Hf. apply elem_of_cons. right. auto.
      * discriminate.
      * intros _. apply H4. rewrite Hpc. discriminate.
      * discriminate.
      * intros P. destruct (H6 P) as (fs & E & S).
        exists fs. split; [exact E|].
        intros f Hf. apply elem_of_cons. right. auto.
    + split; cbn [t_pc t_frame t_hdl t_path t_env set_pc publishes].
      * intros _. rewrite generation_publish.
        change (last_seen i (Publish buf :: h)) with (last_seen i h). lia.
      * intros f Hf. apply elem_of_cons. right. auto.
      * exact H3.
      * exact H4.
      * intros P. exfalso. apply Hin. auto.
      * intros P. destruct (H6 P) as (fs & E & S).
        exists fs. split; [exact E|].
        intros f Hf. apply elem_of_cons. right. auto.
Qed.

Lemma request_threads g s env path :
  threads (request g s env path) =
  threads s ++
    [if String.eqb path "/stream.mjpg"
     then mkThread path env AtLoop None (mkHandler [] (stream_head env) true)
     else mkThread path env Finished None
            (hdl (snd (serve g env path (sys_world s))))] /\
  output (request g s env path) = output s.
Proof.
  unfold request. fold (serve g env path (sys_world s)).
  destruct (String.eqb path "/stream.mjpg") eqn:E.
  - apply String.eqb_eq in E. subst path. rewrite serve_stream. split; reflexivity.
  - pose proof (serve_other g env path (sys_world s) E) as R.
    destruct (serve g env path (sys_world s)) as [r c]. cbn in R. subst r.
    split; reflexivity.
Qed.

Lemma request_inv g h s env path :
  Inv h s -> Inv (Request env path :: h) (request g s env path).
Proof.
  intros [F W T].
  destruct (request_threads g s env path) as [ET EO].
  split; rewrite ?EO, ?ET.
  - exact F.
  - intros i H. destruct (W i H) as (t & Ht & Hpc).
    exists t. split; [|exact Hpc]. apply lookup_app_l_Some. exact Ht.
  - intros i t H. apply lookup_snoc_Some in H.
    destruct H as [[_ H]|[-> <-]].
    + apply (thread_ok_quiet h _ (output s)); [exact I|auto|auto].
    + destruct (String.eqb path "/stream.mjpg") eqn:E.
      * split; cbn; try discriminate; try reflexivity.
        intros _. exists []. split; [|intros f Hf; apply elem_of_nil in Hf;
                                      contradiction].
        cbn. rewrite app_nil_r. reflexivity.
      * split; cbn; try discriminate; try (intros; congruence).
        intros P. rewrite P in E. discriminate E.
Qed.

Lemma enter_wait_inv h s i s' :
  Inv h s -> enter_wait s i = Some s' -> Inv (EnterWait i :: h) s'.
Proof.
  intros [F W T] H. unfold enter_wait in H.
  destruct (threads s !! i) as [t|] eqn:Ht; [|discriminate H]. cbn in H.
  destruct (decide (t_pc t = AtLoop)) as [Hpc|]; [|discriminate H].
  injection H as <-.
  split; cbn [output threads frame condition waiters].
  - exact F.
  - intros j Hj. apply elem_of_app in Hj. destruct Hj as [Hj|Hj].
    + destruct (W j Hj) as (t0 & Ht0 & Hpc0).
      assert (i <> j) by (intros ->; congruence).
      exists t0. split; [|exact Hpc0].
      rewrite list_lookup_insert_ne by assumption. exact Ht0.
    + apply list_elem_of_singleton in Hj. subst j.
      exists (set_pc InWait t). split; [|reflexivity].
      apply list_lookup_insert_eq. eapply lookup_lt_Some, Ht.
  - intros j t' Hj. apply list_lookup_insert_Some in Hj.
    destruct Hj as [(<- & <- & _)|(Hne & Hj)].
    + destruct (T i t Ht) as [H1 H2 H3 H4 H5 H6].
      split; cbn [t_pc t_frame t_hdl t_path t_env set_pc condition waiters];
        try discriminate.
      * intros f Hf. apply H2, Hf.
      * intros _. apply H4. rewrite Hpc. discriminate.
      * intros _. apply elem_of_app. right. apply list_elem_of_singleton.
        reflexivity.
      * exact H6.
    + apply (thread_ok_quiet h _ (output s)); [exact I| |auto].
      intros _ Hin. cbn. apply elem_of_app. left. exact Hin.
Qed.

Lemma wake_inv h s i s' :
  Inv h s -> wake s i = Some s' -> Inv (Wake i :: h) s'.
Proof.
  intros [F W T] H. unfold wake in H.
  destruct (threads s !! i) as [t|] eqn:Ht; [|discriminate H]. cbn in H.
  destruct (decide (t_pc t = Woken)) as [Hpc|]; [|discriminate H].
  injection H as <-.
  destruct (T i t Ht) as [H1 H2 H3 H4 H5 H6].
  split; cbn [output threads].
  - exact F.
  - intros j Hj. destruct (W j Hj) as (t0 & Ht0 & Hpc0).
    assert (i <> j) by (intros ->; congruence).
    exists t0. split; [|exact Hpc0].
    rewrite list_lookup_insert_ne by assumption. exact Ht0.
  - intros j t' Hj. apply list_lookup_insert_Some in Hj.
    destruct Hj as [(<- & <- & _)|(Hne & Hj)].
    + split; cbn [t_pc t_frame t_hdl t_path t_env]; try discriminate.
      * intros f Hf. rewrite F in Hf.
        change (publishes (Wake i :: h)) with (publishes h).
        destruct (publishes h) as [|f0 l]; [discriminate Hf|].
        injection Hf as ->. apply elem_of_cons. left. reflexivity.
      * intros _. rewrite F. specialize (H1 Hpc). unfold generation in H1.
        destruct (publishes h); [cbn in H1; lia|]. cbn. eauto.
      * intros _. apply H4. rewrite Hpc. discriminate.
      * exact H6.
    + apply (thread_ok_quiet h _ (output s)); [|auto|auto].
      cbn. congruence.
Qed.

Lemma send_inv h s i s' :
  Inv h s -> send s i = Some s' -> Inv (Send i :: h) s'.
Proof.
  intros [F W T] H. unfold send in H.
  destruct (threads s !! i) as [t|] eqn:Ht; [|discriminate H]. cbn in H.
  destruct (decide (t_pc t = GotFrame)) as [Hpc|]; [|discriminate H].
  destruct (T i t Ht) as [H1 H2 H3 H4 H5 H6].
  destruct (H3 Hpc) as [f Hf].
  assert (Hb : headers_buffer (t_hdl t) = []) by (apply H4; congruence).
  assert (Hothers : forall j t', i <> j -> threads s !! j = Some t' ->
                                 thread_ok (Send i :: h) (output s) j t').
  { intros j t' Hne Hj.
    apply (thread_ok_quiet h _ (output s)); [exact I|auto|auto]. }
  assert (Hwaiters : forall x j, j ∈ waiters (condition (output s)) ->
            exists t0, <[i := x]> (threads s) !! j = Some t0 /\ t_pc t0 = InWait).
  { intros x j Hj. destruct (W j Hj) as (t0 & Ht0 & Hpc0).
    assert (i <> j) by (intros ->; congruence).
    exists t0. split; [|exact Hpc0].
    rewrite list_lookup_insert_ne by assumption. exact Ht0. }
  rewrite Hf in H.
  destruct (t_hdl t) as [buf out live] eqn:Eh. cbn in Hb. subst buf.
  destruct live.
  - rewrite stream_turn_live in H. injection H as <-.
    split; cbn [output threads world hdl].
    + exact F.
    + apply Hwaiters.
    + intros j t' Hj. apply list_lookup_insert_Some in Hj.
      destruct Hj as [(<- & <- & _)|(Hne & Hj)]; [|auto].
      split; cbn [t_pc t_frame t_hdl t_path t_env headers_buffer wfile];
        try discriminate; try reflexivity.
      * intros f' Hf'. apply H2. congruence.
      * intros P. destruct (H6 P) as (fs & E & S). cbn in E.
        exists (fs ++ [f]). split.
        -- rewrite E, flat_map_app, <- app_assoc. cbn. rewrite app_nil_r.
           reflexivity.
        -- intros f' Hf'. apply elem_of_app in Hf'. destruct Hf' as [Hf'|Hf'].
           ++ apply (S f' Hf').
           ++ apply list_elem_of_singleton in Hf'. subst f'. apply (H2 f Hf).
  - rewrite stream_turn_dead in H. injection H as <-.
    split; cbn [output threads world hdl].
    + exact F.
    + apply Hwaiters.
    + intros j t' Hj. apply list_lookup_insert_Some in Hj.
      destruct Hj as [(<- & <- & _)|(Hne & Hj)]; [|auto].
      split; cbn [t_pc t_frame t_hdl t_path t_env headers_buffer wfile];
        try discriminate; try congruence.
      * intros f' Hf'. apply H2. congruence.
      * intros P. destruct (H6 P) as (fs & E & S). cbn in E.
        exists fs. split; [exact E|exact S].
Qed.

Lemma disconnect_inv h s i s' :
  Inv h s -> disconnect s i = Some s' -> Inv (Disconnect i :: h) s'.
Proof.
  intros [F W T] H. unfold disconnect in H.
  destruct (threads s !! i) as [t|] eqn:Ht; [|discriminate H]. cbn in H.
  injection H as <-.
  destruct (T i t Ht) as [H1 H2 H3 H4 H5 H6].
  split; cbn [output threads].
  - exact F.
  - intros j Hj. destruct (W j Hj) as (t0 & Ht0 & Hpc0).
    destruct (decide (i = j)) as [<-|Hne].
    + assert (t0 = t) by congruence. subst t0.
      eexists. split; [apply list_lookup_insert_eq; eapply lookup_lt_Some, Ht|].
      exact Hpc0.
    + exists t0. split; [|exact Hpc0].
      rewrite list_lookup_insert_ne by assumption. exact Ht0.
  - intros j t' Hj. apply list_lookup_insert_Some in Hj.
    destruct Hj as [(<- & <- & _)|(Hne & Hj)].
    + apply (thread_ok_quiet h (Disconnect i) (output s) (output s) i
               (mkThread (t_path t) (t_env t) (t_pc t) (t_frame t)
                  (mkHandler (headers_buffer (t_hdl t)) (wfile (t_hdl t)) false)));
        [exact I|auto|].
      split; cbn [t_pc t_frame t_hdl t_path t_env headers_buffer wfile]; auto.
    + apply (thread_ok_quiet h _ (output s)); [exact I|auto|auto].
Qed.

Lemma step_inv g h s e s' : Inv h s -> step g s e = Some s' -> Inv (e :: h) s'.
Proof.
  intros HI H. destruct e; cbn [step] in H.
  - injection H as <-. apply publish_inv, HI.
  - injection H as <-. apply request_inv, HI.
  - eapply enter_wait_inv; eassumption.
  - eapply wake_inv; eassumption.
  - eapply send_inv; eassumption.
  - eapply disconnect_inv; eassumption.
Qed.

(** Every state the process reaches satisfies the invariant. *)
Lemma run_inv g w h s : run g (init w) h = Some s -> Inv h s.
Proof.
  revert s. induction h as [|e h IH]; intros s H; cbn [run] in H.
  - injection H as <-. apply init_inv.
  - destruct (run g (init w) h) as [s1|]; [|discriminate H]. cbn in H.
    eapply step_inv; [apply IH; reflexivity|exact H].
Qed.

(** ** The frame sink: generations *)

(** C1, as stated, fails on its first half: the sink stores no generation
    counter.  Publishing the same frame again leaves the sink exactly as it
    was, so nothing computed from its state can have advanced. *)
Lemma sink_stores_no_generation_counter :
  fst (write (fst (write StreamingOutput_init jpeg1)) jpeg1) =
    fst (write StreamingOutput_init jpeg1) /\
  (forall counter : StreamingOutput -> nat,
     counter (fst (write (fst (write StreamingOutput_init jpeg1)) jpeg1)) <>
       S (counter (fst (write StreamingOutput_init jpeg1)))).
Proof.
  split; [reflexivity|].
  intros counter.
  change (fst (write (fst (write StreamingOutput_init jpeg1)) jpeg1))
    with (fst (write StreamingOutput_init jpeg1)).
  lia.
Qed.

(** C1 (amended): the sink holds the current frame and the condition only;
    the generation is the number of publishes so far and is stored nowhere.
    Whenever a reader's wait returns, the frame it reads is the latest
    published one, and its generation is strictly greater than the one the
    reader last saw: no stale repeat, no return from the wait without a new
    frame. *)
Theorem wake_reads_newer_generation (g : Globals) (w : World)
    (h : list Event) (s s' : System) (i : nat) :
  run g (init w) h = Some s ->
  step g s (Wake i) = Some s' ->
  exists t f,
    threads s' !! i = Some t /\
    t_frame t = Some f /\
    head (publishes h) = Some f /\
    last_seen i h < generation h /\
    last_seen i (Wake i :: h) = generation h.
Proof.
  intros R H. pose proof (run_inv g w h s R) as [F W T].
  cbn [step] in H. unfold wake in H.
  destruct (threads s !! i) as [t|] eqn:Ht; [|discriminate H]. cbn in H.
  destruct (decide (t_pc t = Woken)) as [Hpc|]; [|discriminate H].
  injection H as <-.
  destruct (T i t Ht) as [H1 _ _ _ _ _]. specialize (H1 Hpc).
  assert (exists f, head (publishes h) = Some f) as [f Hf].
  { unfold generation in H1. destruct (publishes h); [cbn in H1; lia|].
    cbn. eauto. }
  eexists. exists f. cbn [threads].
  split; [apply list_lookup_insert_eq; eapply lookup_lt_Some, Ht|].
  cbn [t_frame]. rewrite F.
  repeat split; try assumption.
  cbn [last_seen]. destruct (decide (i = i)); [reflexivity|contradiction].
Qed.

(** A reader attaches, waits, a frame is published, and its wait returns. *)
Lemma wake_reads_newer_generation_witness :
  exists s s',
    run sample_globals (init sample_world) sample_history = Some s /\
    step sample_globals s (Wake 0) = Some s' /\
    exists t f,
      threads s' !! 0 = Some t /\
      t_frame t = Some f /\
      head (publishes sample_history) = Some f /\
      last_seen 0 sample_history < generation sample_history /\
      last_seen 0 (Wake 0 :: sample_history) = generation sample_history.
Proof.
  eexists. eexists.
  split; [vm_compute; reflexivity|].
  split; [vm_compute; reflexivity|].
  eapply (wake_reads_newer_generation sample_globals sample_world
            sample_history).
  - vm_compute. reflexivity.
  - vm_compute. reflexivity.
Defined.

(** ** A reader that has not been notified gets nothing *)

Lemma step_keeps_blocked g s e s' i t t1 :
  publishes [e] = [] ->
  threads s !! i = Some t1 -> blocked t t1 ->
  step g s e = Some s' ->
  exists t2, threads s' !! i = Some t2 /\ blocked t t2.
Proof.
  intros Q Ht (Hpc & Hf & Hw) H.
  assert (Hlt : i < length (threads s)) by (eapply lookup_lt_Some, Ht).
  destruct e as [buf|env path|j|j|j|j]; cbn [step] in H.
  - discriminate Q.
  - injection H as <-.
    destruct (request_threads g s env path) as [ET _]. rewrite ET.
    exists t1. split; [apply lookup_app_l_Some, Ht|]. repeat split; assumption.
  - unfold enter_wait in H.
    destruct (threads s !! j) as [tj|] eqn:Hj; [|discriminate H]. cbn in H.
    destruct (decide (t_pc tj = AtLoop)); [|discriminate H].
    injection H as <-. cbn [threads].
    destruct (decide (j = i)) as [->|Hne].
    + assert (tj = t1) by congruence. subst tj.
      exists (set_pc InWait t1).
      split; [apply list_lookup_insert_eq, Hlt|].
      repeat split; cbn; auto.
    + exists t1. split; [rewrite list_lookup_insert_ne by assumption; exact Ht|].
      repeat split; assumption.
  - unfold wake in H.
    destruct (threads s !! j) as [tj|] eqn:Hj; [|discriminate H]. cbn in H.
    destruct (decide (t_pc tj = Woken)) as [Hw1|]; [|discriminate H].
    injection H as <-. cbn [threads].
    destruct (decide (j = i)) as [->|Hne].
    + assert (tj = t1) by congruence. subst tj.
      destruct Hpc; congruence.
    + exists t1. split; [rewrite list_lookup_insert_ne by assumption; exact Ht|].
      repeat split; assumption.
  - unfold send in H.
    destruct (threads s !! j) as [tj|] eqn:Hj; [|discriminate H]. cbn in H.
    destruct (decide (t_pc tj = GotFrame)) as [Hg|]; [|discriminate H].
    destruct (stream_turn (t_env tj) (t_frame tj)
                (mkConn (t_hdl tj) (sys_world s))) as [r c].
    injection H as <-. cbn [threads].
    destruct (decide (j = i)) as [->|Hne].
    + assert (tj = t1) by congruence. subst tj.
      destruct Hpc; congruence.
    + exists t1. split; [rewrite list_lookup_insert_ne by assumption; exact Ht|].
      repeat split; assumption.
  - unfold disconnect in H.
    destruct (threads s !! j) as [tj|] eqn:Hj; [|discriminate H]. cbn in H.
    injection H as <-. cbn [threads].
    destruct (decide (j = i)) as [->|Hne].
    + assert (tj = t1) by congruence. subst tj.
      eexists. split; [apply list_lookup_insert_eq, Hlt|].
      repeat split; cbn; auto.
    + exists t1. split; [rewrite list_lookup_insert_ne by assumption; exact Ht|].
      repeat split; assumption.
Qed.

Lemma publishes_cons_nil e h :
  publishes (e :: h) = [] -> publishes [e] = [] /\ publishes h = [].
Proof. destruct e; cbn; intros H; (discriminate H || (split; [reflexivity|exact H])). Qed.

(** Without a publish, a reader standing at the loop or in the wait stays
    there: it reads no frame and is sent no byte. *)
Lemma run_keeps_blocked g h : forall s s' i t,
  publishes h = [] ->
  run g s h = Some s' ->
  threads s !! i = Some t ->
  t_pc t = AtLoop \/ t_pc t = InWait ->
  exists t', threads s' !! i = Some t' /\ blocked t t'.
Proof.
  induction h as [|e h IH]; intros s s' i t Q R Ht Hpc.
  - cbn in R. injection R as <-. exists t. split; [exact Ht|].
    repeat split; auto.
  - apply publishes_cons_nil in Q. destruct Q as [Qe Qh].
    cbn [run] in R.
    destruct (run g s h) as [s1|] eqn:R1; [|discriminate R]. cbn in R.
    destruct (IH s s1 i t Qh R1 Ht Hpc) as (t1 & Ht1 & B1).
    eapply step_keeps_blocked; eassumption.
Qed.

(** ** First attach *)

(** C4, as stated, fails: with a frame already in the sink, the reader that
    attaches cannot take it (reading is enabled only after a notification),
    and as long as nothing new is published it holds no frame and is sent
    nothing beyond the response head. *)
Lemma attach_cannot_read_held_frame :
  run sample_globals (init sample_world) attach_history = Some attached_state /\
  frame (output attached_state) = Some jpeg1 /\
  step sample_globals attached_state (Wake 0) = None /\
  step sample_globals attached_state (Send 0) = None /\
  forall h s',
    publishes h = [] ->
    run sample_globals attached_state h = Some s' ->
    exists t, threads s' !! 0 = Some t /\
              t_frame t = None /\
              wfile (t_hdl t) = stream_head sample_env.
Proof.
  split; [reflexivity|].
  split; [vm_compute; reflexivity|].
  split; [vm_compute; reflexivity|].
  split; [vm_compute; reflexivity|].
  intros h s' Q R.
  assert (Ht : threads attached_state !! 0 =
               Some (mkThread "/stream.mjpg" sample_env AtLoop None
                       (mkHandler [] (stream_head sample_env) true)))
    by (vm_compute; reflexivity).
  destruct (run_keeps_blocked _ h _ s' 0 _ Q R Ht (or_introl eq_refl))
    as (t & Ht' & _ & Hf & Hw).
  exists t. split; [exact Ht'|]. split; [exact Hf|exact Hw].
Qed.

(** C4 (amended): on first attach a streaming reader does not read the
    frame the sink holds; it goes to the blocking wait first, and until a
    frame is published after its attach it holds no frame and has been sent
    the response head only. *)
Theorem attach_waits_for_next_publish (g : Globals) (s0 s' : System)
    (env : Env) (h : list Event) :
  publishes h = [] ->
  run g s0 (h ++ [Request env "/stream.mjpg"]) = Some s' ->
  exists t,
    threads s' !! length (threads s0) = Some t /\
    (t_pc t = AtLoop \/ t_pc t = InWait) /\
    t_frame t = None /\
    wfile (t_hdl t) = stream_head env.
Proof.
  intros Q R. rewrite run_app in R. cbn [run step] in R. cbn in R.
  destruct (request_threads g s0 env "/stream.mjpg") as [ET _].
  cbn in ET.
  assert (Ht : threads (request g s0 env "/stream.mjpg") !! length (threads s0)
               = Some (mkThread "/stream.mjpg" env AtLoop None
                         (mkHandler [] (stream_head env) true))).
  { rewrite ET. apply list_lookup_middle. reflexivity. }
  destruct (run_keeps_blocked g h _ s' _ _ Q R Ht (or_introl eq_refl))
    as (t & Ht' & Hpc & Hf & Hw).
  exists t. repeat split; assumption.
Qed.

(** A reader attaching to the fresh process. *)
Lemma attach_waits_for_next_publish_witness :
  exists t,
    threads (request sample_globals (init sample_world) sample_env
               "/stream.mjpg") !! 0 = Some t /\
    (t_pc t = AtLoop \/ t_pc t = InWait) /\
    t_frame t = None /\
    wfile (t_hdl t) = stream_head sample_env.
Proof.
  exact (attach_waits_for_next_publish sample_globals (init sample_world)
           (request sample_globals (init sample_world) sample_env
              "/stream.mjpg")
           sample_env [] eq_refl eq_refl).
Defined.

(** ** Latest wins *)

Lemma step_keeps_latest g s e s' i t F2 t1 :
  publishes [e] = [] ->
  frame (output s) = Some F2 ->
  threads s !! i = Some t1 -> holds_latest t F2 t1 ->
  step g s e = Some s' ->
  frame (output s') = Some F2 /\
  exists t2, threads s' !! i = Some t2 /\ holds_latest t F2 t2.
Proof.
  intros Q F Ht L H.
  assert (Hlt : i < length (threads s)) by (eapply lookup_lt_Some, Ht).
  destruct e as [buf|env path|j|j|j|j]; cbn [step] in H.
  - discriminate Q.
  - injection H as <-.
    destruct (request_threads g s env path) as [ET EO]. rewrite ET, EO.
    split; [exact F|].
    exists t1. split; [apply lookup_app_l_Some, Ht|exact L].
  - unfold enter_wait in H.
    destruct (threads s !! j) as [tj|] eqn:Hj; [|discriminate H]. cbn in H.
    destruct (decide (t_pc tj = AtLoop)) as [Hp|]; [|discriminate H].
    injection H as <-. cbn [threads output frame].
    split; [exact F|].
    destruct (decide (j = i)) as [->|Hne].
    + assert (tj = t1) by congruence. subst tj.
      exists (set_pc InWait t1).
      split; [apply list_lookup_insert_eq, Hlt|].
      destruct L as [(P & _)|[(P & _)|[(_ & Hf & Hw)|(P & _)]]];
        try congruence.
      right. right. left. cbn. auto.
    + exists t1. split; [rewrite list_lookup_insert_ne by assumption; exact Ht|].
      exact L.
  - unfold wake in H.
    destruct (threads s !! j) as [tj|] eqn:Hj; [|discriminate H]. cbn in H.
    destruct (decide (t_pc tj = Woken)) as [Hp|]; [|discriminate H].
    injection H as <-. cbn [threads output].
    split; [exact F|].
    destruct (decide (j = i)) as [->|Hne].
    + assert (tj = t1) by congruence. subst tj.
      eexists. split; [apply list_lookup_insert_eq, Hlt|].
      destruct L as [(_ & _ & Hb & Hw)|[(P & _)|[([P|P] & _)|(P & _)]]];
        try congruence.
      right. left. cbn. auto.
    + exists t1. split; [rewrite list_lookup_insert_ne by assumption; exact Ht|].
      exact L.
  - unfold send in H.
    destruct (threads s !! j) as [tj|] eqn:Hj; [|discriminate H]. cbn in H.
    destruct (decide (t_pc tj = GotFrame)) as [Hp|]; [|discriminate H].
    destruct (decide (j = i)) as [->|Hne].
    + assert (tj = t1) by congruence. subst tj.
      destruct L as [(P & _)|[(_ & Hf & Hb & Hw)|[([P|P] & _)|(P & _)]]];
        try congruence.
      rewrite Hf in H.
      destruct (t_hdl t1) as [buf out live] eqn:Eh. cbn in Hb, Hw. subst buf.
      destruct live.
      * rewrite stream_turn_live in H. injection H as <-.
        cbn [threads output hdl]. split; [exact F|].
        eexists. split; [apply list_lookup_insert_eq, Hlt|].
        right. right. left. cbn. rewrite Hw. auto.
      * rewrite stream_turn_dead in H. injection H as <-.
        cbn [threads output hdl]. split; [exact F|].
        eexists. split; [apply list_lookup_insert_eq, Hlt|].
        right. right. right. cbn. auto.
    + destruct (stream_turn (t_env tj) (t_frame tj)
                  (mkConn (t_hdl tj) (sys_world s))) as [r c].
      injection H as <-. cbn [threads output]. split; [exact F|].
      exists t1. split; [rewrite list_lookup_insert_ne by assumption; exact Ht|].
      exact L.
  - unfold disconnect in H.
    destruct (threads s !! j) as [tj|] eqn:Hj; [|discriminate H]. cbn in H.
    injection H as <-. cbn [threads output]. split; [exact F|].
    destruct (decide (j = i)) as [->|Hne].
    + assert (tj = t1) by congruence. subst tj.
      eexists. split; [apply list_lookup_insert_eq, Hlt|].
      exact L.
    + exists t1. split; [rewrite list_lookup_insert_ne by assumption; exact Ht|].
      exact L.
Qed.

Lemma run_keeps_latest g h : forall s s' i t F2 t1,
  publishes h = [] ->
  frame (output s) = Some F2 ->
  threads s !! i = Some t1 -> holds_latest t F2 t1 ->
  run g s h = Some s' ->
  frame (output s') = Some F2 /\
  exists t2, threads s' !! i = Some t2 /\ holds_latest t F2 t2.
Proof.
  induction h as [|e h IH]; intros s s' i t F2 t1 Q F Ht L R.
  - cbn in R. injection R as <-. split; [exact F|]. exists t1. auto.
  - apply publishes_cons_nil in Q. destruct Q as [Qe Qh].
    cbn [run] in R.
    destruct (run g s h) as [s1|] eqn:R1; [|discriminate R]. cbn in R.
    destruct (IH s s1 i t F2 t1 Qh F Ht L R1) as (F1 & t2 & Ht2 & L2).
    eapply step_keeps_latest; eassumption.
Qed.

(** Two publishes in a row leave a waiting reader notified, with the second
    frame in the sink. *)
Lemma publish_twice s i t F1 F2 :
  threads s !! i = Some t ->
  i ∈ waiters (condition (output s)) ->
  frame (output (publish (publish s F1) F2)) = Some F2 /\
  threads (publish (publish s F1) F2) !! i = Some (set_pc Woken t).
Proof.
  intros Ht Hin. unfold publish, write, notify_all. cbn.
  split; [reflexivity|].
  rewrite !list_lookup_imap, Ht. cbn.
  rewrite (bool_decide_eq_true_2 _ Hin).
  rewrite (bool_decide_eq_false_2 (i ∈ []) (not_elem_of_nil i)).
  reflexivity.
Qed.

Lemma publishes_app h2 h1 : publishes (h2 ++ h1) = publishes h2 ++ publishes h1.
Proof.
  induction h2 as [|e h2 IH]; [reflexivity|].
  destruct e; cbn; rewrite ?IH; reflexivity.
Qed.

(** C2: when F2 is published right after F1, before a waiting reader has
    run, that reader reads F2 and only F2.  Its read is enabled at once and
    as long as it has not run, and yields F2; on a live connection the read
    and the send then put exactly the one part of F2 on its connection.
    Until the next publish its [frame] is either still what it was or F2,
    and its connection has received either nothing more or the one part of
    F2.  What any reader holds is always one of the published buffers as a
    whole, never a piece of one. *)
Theorem latest_wins (g : Globals) (w : World) (h0 h : list Event)
    (s s' : System) (i : nat) (t : Thread) (F1 F2 : bytes) :
  run g (init w) h0 = Some s ->
  threads s !! i = Some t ->
  t_pc t = InWait ->
  publishes h = [] ->
  run g (publish (publish s F1) F2) h = Some s' ->
  frame (output s') = Some F2 /\
  (exists t',
     threads s' !! i = Some t' /\
     ((t_pc t' = Woken /\ t_frame t' = t_frame t /\
       wfile (t_hdl t') = wfile (t_hdl t)) \/
      (t_frame t' = Some F2 /\
       (wfile (t_hdl t') = wfile (t_hdl t) \/
        wfile (t_hdl t') = wfile (t_hdl t) ++ mjpeg_part F2)))) /\
  (forall j tj f,
     threads s' !! j = Some tj -> t_frame tj = Some f ->
     f ∈ F2 :: F1 :: publishes h0) /\
  (exists s3,
     step g (publish (publish s F1) F2) (Wake i) = Some s3 /\
     threads s3 !! i =
       Some (mkThread (t_path t) (t_env t) GotFrame (Some F2) (t_hdl t))) /\
  (forall t',
     threads s' !! i = Some t' -> t_pc t' = Woken ->
     exists s'',
       step g s' (Wake i) = Some s'' /\
       threads s'' !! i =
         Some (mkThread (t_path t') (t_env t') GotFrame (Some F2) (t_hdl t'))) /\
  (connected (t_hdl t) = true ->
   exists s4,
     run g (publish (publish s F1) F2) [Send i; Wake i] = Some s4 /\
     threads s4 !! i =
       Some (mkThread (t_path t) (t_env t) AtLoop (Some F2)
               (mkHandler [] (wfile (t_hdl t) ++ mjpeg_part F2) true))).
Proof.
  intros R0 Ht Hpc Q R.
  pose proof (run_inv g w h0 s R0) as [F W T].
  destruct (T i t Ht) as [_ _ _ Hb Hwait _].
  destruct (publish_twice s i t F1 F2 Ht (Hwait Hpc)) as [F' Ht'].
  assert (L : holds_latest t F2 (set_pc Woken t)).
  { left. cbn. repeat split; try reflexivity. apply Hb. congruence. }
  destruct (run_keeps_latest g h _ s' i t F2 _ Q F' Ht' L R)
    as (F'' & t2 & Ht2 & L2).
  (* the read right after the two publishes *)
  set (s2 := publish (publish s F1) F2) in *.
  set (t3 := mkThread (t_path t) (t_env t) GotFrame (Some F2) (t_hdl t)).
  set (s3 := mkSystem (output s2) (<[i := t3]> (threads s2)) (sys_world s2)).
  assert (E3 : step g s2 (Wake i) = Some s3).
  { cbn [step]. unfold wake. rewrite Ht'.
    cbn [mbind option_bind set_pc t_pc].
    destruct (decide (Woken = Woken)) as [_|]; [|contradiction].
    rewrite F'. reflexivity. }
  assert (Ht3 : threads s3 !! i = Some t3).
  { cbn [s3 threads]. apply list_lookup_insert_eq. eapply lookup_lt_Some, Ht'. }
  split; [exact F''|]. split; [|split; [|split; [|split]]].
  - exists t2. split; [exact Ht2|].
    destruct L2 as [(P & Hf & _ & Hw)|[(P & Hf & _ & Hw)|[(P & Hf & Hw)|(P & Hf & Hw)]]];
      auto.
  - intros j tj f Hj Hf.
    assert (Rall : run g (init w) (h ++ Publish F2 :: Publish F1 :: h0) = Some s').
    { rewrite run_app. cbn [run]. rewrite R0. exact R. }
    pose proof (run_inv g w _ s' Rall) as [_ _ T'].
    destruct (T' j tj Hj) as [_ H2 _ _ _ _].
    specialize (H2 f Hf). rewrite publishes_app, Q in H2. exact H2.
  - exists s3. split; [exact E3|exact Ht3].
  - intros t' Hl P. eexists. split.
    + cbn [step]. unfold wake. rewrite Hl. cbn [mbind option_bind].
      destruct (decide (t_pc t' = Woken)) as [_|]; [|contradiction].
      rewrite F''. reflexivity.
    + cbn [threads]. apply list_lookup_insert_eq. eapply lookup_lt_Some, Hl.
  - intros C.
    assert (Hb' : headers_buffer (t_hdl t) = []) by (apply Hb; congruence).
    assert (Hlt : i < length (threads s3)).
    { cbn [s3 threads]. rewrite length_insert. eapply lookup_lt_Some, Ht'. }
    destruct (t_hdl t) as [buf out live] eqn:Eh. cbn in Hb', C. subst buf live.
    exists (mkSystem (output s3)
              (<[i := mkThread (t_path t) (t_env t) AtLoop (Some F2)
                        (mkHandler [] (out ++ mjpeg_part F2) true)]>
                 (threads s3))
              (sys_world s3)).
    split.
    + change (run g s2 [Send i; Wake i])
        with (step g s2 (Wake i) ≫= fun x => step g x (Send i)).
      rewrite E3. cbn [mbind option_bind step]. unfold send. rewrite Ht3.
      cbn [mbind option_bind t3 t_pc t_env t_frame t_hdl t_path].
      destruct (decide (GotFrame = GotFrame)) as [_|]; [|contradiction].
      rewrite stream_turn_live. reflexivity.
    + cbn [threads wfile]. apply list_lookup_insert_eq, Hlt.
Qed.

(** The waiting sample reader, two publishes, then its read and its send:
    the part of the second frame is what reaches its connection. *)
Lemma latest_wins_witness :
  run sample_globals (init sample_world) waiting_history = Some waiting_state /\
  threads waiting_state !! 0 = Some waiting_thread /\
  exists s4,
    run sample_globals (publish (publish waiting_state jpeg1) jpeg2)
      [Send 0; Wake 0] = Some s4 /\
    threads s4 !! 0 =
      Some (mkThread "/stream.mjpg" sample_env AtLoop (Some jpeg2)
              (mkHandler [] (stream_head sample_env ++ mjpeg_part jpeg2) true)).
Proof.
  assert (R0 : run sample_globals (init sample_world) waiting_history =
               Some waiting_state) by (vm_compute; reflexivity).
  split; [exact R0|]. split; [reflexivity|].
  exact (proj2 (proj2 (proj2 (proj2 (proj2
           (latest_wins sample_globals sample_world waiting_history []
              waiting_state (publish (publish waiting_state jpeg1) jpeg2)
              0 waiting_thread jpeg1 jpeg2 R0 eq_refl eq_refl eq_refl
              eq_refl))))) eq_refl).
Defined.

(** * Further properties of the code *)

(** ** Routing *)

(** X1: a GET for any path other than the four routes, compared as exact
    strings, is answered 404 with the library's error page and leaves the
    world as it was; the branch's own [end_headers()] after [send_error]
    puts one CRLF after the page, beyond its declared Content-Length. *)
Theorem unknown_path_is_404 (g : Globals) (env : Env) (path : string)
    (w : World) :
  path ∉ routes ->
  serve g env path w =
    (Ok Returned,
     mkConn (mkHandler []
               (plain_response env 404 (not_found_headers env)
                  (error_body env ++ latin1 CRLF))
               true) w).
Proof.
  intros H.
  assert (N : forall r, r ∈ routes -> String.eqb path r = false).
  { intros r Hr. apply String.eqb_neq. intros ->. apply H, Hr. }
  apply do_GET_not_found; apply N; unfold routes; set_solver.
Qed.

Lemma unknown_path_is_404_witness :
  ("/INDEX.HTML" ∉ routes) /\
  fst (serve sample_globals sample_env "/INDEX.HTML" sample_world) = Ok Returned.
Proof.
  assert (H : "/INDEX.HTML" ∉ routes).
  { unfold routes. intros H.
    repeat (apply elem_of_cons in H; destruct H as [H|H]; [discriminate H|]).
    apply elem_of_nil in H. exact H. }
  split; [exact H|].
  rewrite (unknown_path_is_404 sample_globals sample_env "/INDEX.HTML"
             sample_world H).
  reflexivity.
Defined.

(** ** The template on disk *)

(** X2: when the template file is readable, module load binds
    [HTML_TEMPLATE] to its content and logs nothing, and GET /index.html
    serves that content encoded in UTF-8, with Content-Length counting the
    encoded bytes. *)
Theorem present_template_is_served (base : string) (w : World) (t : text) :
  fs w !! template_path base = Some (Ok t) ->
  module_load base w =
    (Ok (mkGlobals base t), opened_add w (template_path base)) /\
  forall env w',
    wire (mkGlobals base t) env "/index.html" w' =
      plain_response env 200
        (header_line "Content-Type" "text/html" +:+
         header_line "Content-Length" (str_of_nat (length (utf8_encode t))))
        (utf8_encode t).
Proof.
  intros E. split.
  - unfold module_load, mbind, M_bind, bind.
    rewrite (load_html_template_present base w t E). reflexivity.
  - intros env w'. unfold wire. rewrite serve_index. reflexivity.
Qed.

Lemma present_template_is_served_witness :
  fs templated_world !! template_path "/home/pi/camera_web" =
    Some (Ok sample_template) /\
  length (utf8_encode sample_template) = 13 /\
  fst (module_load "/home/pi/camera_web" templated_world) =
    Ok (mkGlobals "/home/pi/camera_web" sample_template).
Proof.
  assert (H : fs templated_world !! template_path "/home/pi/camera_web" =
              Some (Ok sample_template)) by (vm_compute; reflexivity).
  split; [exact H|]. split; [reflexivity|].
  rewrite (proj1 (present_template_is_served "/home/pi/camera_web"
                    templated_world sample_template H)).
  reflexivity.
Defined.

(** X3: an error of [open] or [read] other than [FileNotFoundError] is not
    caught by [load_html_template]: it leaves module load with nothing
    logged, so the process does not start. *)
Theorem unreadable_template_fails_startup (base : string) (w : World)
    (e : exn) :
  fs w !! template_path base = Some (Raise e) ->
  is_not_found e = false ->
  module_load base w = (Raise e, opened_add w (template_path base)).
Proof.
  intros E N. unfold module_load, mbind, M_bind, bind.
  rewrite (load_html_template_unreadable base w e E N). reflexivity.
Qed.

Lemma unreadable_template_fails_startup_witness :
  fs locked_world !! template_path "/home/pi/camera_web" =
    Some (Raise (OSError "[Errno 13] Permission denied")) /\
  fst (module_load "/home/pi/camera_web" locked_world) =
    Raise (OSError "[Errno 13] Permission denied").
Proof.
  assert (H : fs locked_world !! template_path "/home/pi/camera_web" =
              Some (Raise (OSError "[Errno 13] Permission denied")))
    by (vm_compute; reflexivity).
  split; [exact H|].
  rewrite (unreadable_template_fails_startup "/home/pi/camera_web"
             locked_world _ H eq_refl).
  reflexivity.
Defined.
(** ** Snapshots: the file, its directory, collisions and a gone client *)

Lemma list_ascii_of_string_app (a b : string) :
  list_ascii_of_string (a +:+ b) =
  list_ascii_of_string a ++ list_ascii_of_string b.
Proof.
  induction a as [|c a IH]; [reflexivity|].
  change (c :: list_ascii_of_string (a +:+ b) =
          c :: (list_ascii_of_string a ++ list_ascii_of_string b)).
  f_equal. exact IH.
Qed.

Lemma drop_to_slash_skips (l r : list ascii) :
  slash ∉ l -> drop_to_slash (l ++ slash :: r) = slash :: r.
Proof.
  induction l as [|c l IH]; intros H; cbn [app drop_to_slash].
  - rewrite Ascii.eqb_refl. reflexivity.
  - destruct (Ascii.eqb c slash) eqn:E.
    + apply Ascii.eqb_eq in E. subst c. exfalso. apply H. left.
    + apply IH. intros Hin. apply H. right. exact Hin.
Qed.

(** Joining a directory that ends in a character other than a slash with a
    slash-free, non-empty name, and taking the directory back. *)
Lemma dirname_path_join (xs : list ascii) (c : ascii) (name : string) :
  Ascii.eqb c slash = false ->
  slash ∉ list_ascii_of_string name ->
  name <> "" ->
  let dir := string_of_list_ascii (xs ++ [c]) in
  path_join dir name = dir +:+ "/" +:+ name /\
  dirname (dir +:+ "/" +:+ name) = dir.
Proof.
  intros Hc Hn Hne dir.
  assert (Hchars : list_ascii_of_string dir = xs ++ [c])
    by apply list_ascii_of_string_of_list_ascii.
  split.
  - unfold path_join.
    assert (String.prefix "/" name = false) as ->.
    { destruct name as [|a name]; [contradiction|].
      cbn [String.prefix].
      destruct (ascii_dec "/" a) as [<-|]; [|reflexivity].
      exfalso. apply Hn. left. }
    assert (String.eqb dir "" = false) as ->.
    { apply String.eqb_neq. intros E. rewrite E in Hchars.
      destruct xs; discriminate Hchars. }
    unfold ends_with_slash. rewrite Hchars, rev_app_distr. cbn.
    rewrite Hc. reflexivity.
  - unfold dirname.
    rewrite !list_ascii_of_string_app, Hchars.
    change (list_ascii_of_string "/") with [slash].
    replace (rev ((xs ++ [c]) ++ [slash] ++ list_ascii_of_string name))
      with (rev (list_ascii_of_string name) ++ slash :: c :: rev xs).
    2:{ rewrite !rev_app_distr. cbn. rewrite <- !app_assoc. reflexivity. }
    rewrite drop_to_slash_skips.
    2:{ intros Hin. apply Hn. apply list_elem_of_In, in_rev, list_elem_of_In.
        exact Hin. }
    cbn [drop_slashes]. rewrite Ascii.eqb_refl. cbn [drop_slashes].
    rewrite Hc. cbn [rev]. rewrite rev_involutive.
    reflexivity.
Qed.

(** X4: as long as the timestamp holds no slash, the directory handed to
    [os.makedirs] is [BASE_DIR]/snapshots and the file handed to
    [capture_file] lies directly in it, named snapshot_<timestamp>.jpg. *)
Theorem snapshot_file_lies_in_made_dir (g : Globals) (env : Env) :
  slash ∉ list_ascii_of_string (now env) ->
  snapshot_path g env =
    path_join (BASE_DIR g) "snapshots" +:+ "/" +:+
    ("snapshot_" +:+ now env +:+ ".jpg") /\
  dirname (snapshot_path g env) = path_join (BASE_DIR g) "snapshots".
Proof.
  intros Hn. unfold snapshot_path.
  set (name := "snapshot_" +:+ now env +:+ ".jpg").
  assert (Hname : slash ∉ list_ascii_of_string name).
  { unfold name. rewrite !list_ascii_of_string_app. intros H.
    apply elem_of_app in H. destruct H as [H|H].
    - vm_compute in H.
      repeat (apply elem_of_cons in H; destruct H as [H|H]; [discriminate H|]).
      apply elem_of_nil in H. exact H.
    - apply elem_of_app in H. destruct H as [H|H]; [exact (Hn H)|].
      vm_compute in H.
      repeat (apply elem_of_cons in H; destruct H as [H|H]; [discriminate H|]).
      apply elem_of_nil in H. exact H. }
  assert (Hne : name <> "") by (unfold name; discriminate).
  assert (Hdir : exists xs, path_join (BASE_DIR g) "snapshots" =
                            string_of_list_ascii (xs ++ ["s"%char])).
  { unfold path_join. cbn [String.prefix].
    destruct (String.eqb (BASE_DIR g) "" || ends_with_slash (BASE_DIR g))%bool.
    - exists (list_ascii_of_string (BASE_DIR g +:+ "snapshot")).
      rewrite <- (string_of_list_ascii_of_string (BASE_DIR g +:+ "snapshots")).
      rewrite !list_ascii_of_string_app, <- app_assoc. reflexivity.
    - exists (list_ascii_of_string (BASE_DIR g +:+ "/snapshot")).
      rewrite <- (string_of_list_ascii_of_string
                    (BASE_DIR g +:+ "/" +:+ "snapshots")).
      rewrite !list_ascii_of_string_app, <- !app_assoc. reflexivity. }
  destruct Hdir as (xs & ->).
  destruct (dirname_path_join xs "s"%char name eq_refl Hname Hne) as [J D].
  rewrite J. split; [reflexivity|exact D].
Qed.

Lemma snapshot_file_lies_in_made_dir_witness :
  (slash ∉ list_ascii_of_string (now sample_env)) /\
  dirname (snapshot_path sample_globals sample_env) =
    "/home/pi/camera_web/snapshots".
Proof.
  assert (H : slash ∉ list_ascii_of_string (now sample_env)).
  { intros H. vm_compute in H.
    repeat (apply elem_of_cons in H; destruct H as [H|H]; [discriminate H|]).
    apply elem_of_nil in H. exact H. }
  split; [exact H|].
  rewrite (proj2 (snapshot_file_lies_in_made_dir sample_globals sample_env H)).
  reflexivity.
Defined.

(** X5: the file name has second resolution and nothing else tells two
    requests apart: two GET /snapshot with the same timestamp, both
    succeeding, are both answered 200 and hand [capture_file] the same
    path, so the second capture replaces the first file. *)
Theorem same_second_snapshots_collide (g : Globals) (env1 env2 : Env)
    (w : World) :
  now env1 = now env2 ->
  snapshot_error env1 = None ->
  snapshot_error env2 = None ->
  let file := snapshot_path g env1 in
  let c1 := snd (serve g env1 "/snapshot" w) in
  let c2 := snd (serve g env2 "/snapshot" (world c1)) in
  wfile (hdl c1) = saved_response env1 /\
  wfile (hdl c2) = saved_response env2 /\
  capture_calls (world c2) = capture_calls w ++ [file; file] /\
  snapshots (world c2) = snapshots w ++ [file; file].
Proof.
  intros T E1 E2 file c1 c2. subst file c1 c2.
  assert (P : snapshot_path g env2 = snapshot_path g env1)
    by (unfold snapshot_path; rewrite T; reflexivity).
  unfold snapshot_error in E1, E2.
  rewrite !serve_snapshot.
  destruct (makedirs_fault env1); [discriminate E1|].
  destruct (capture_fault env1); [discriminate E1|].
  cbn [snd world hdl wfile].
  destruct (makedirs_fault env2); [discriminate E2|].
  destruct (capture_fault env2); [discriminate E2|].
  cbn. rewrite P, <- !app_assoc. repeat split; reflexivity.
Qed.

Lemma same_second_snapshots_collide_witness :
  snapshot_error sample_env = None /\
  capture_calls
    (world (snd (serve sample_globals sample_env "/snapshot"
                   (world (snd (serve sample_globals sample_env "/snapshot"
                                  sample_world)))))) =
    [snapshot_path sample_globals sample_env;
     snapshot_path sample_globals sample_env].
Proof.
  split; [reflexivity|].
  exact (proj1 (proj2 (proj2
           (same_second_snapshots_collide sample_globals sample_env sample_env
              sample_world eq_refl eq_refl eq_refl)))).
Defined.

(** X6: when the client has gone before the answer to GET /snapshot, the
    capture is still made and its file written, yet the failed write of the
    answer is caught by the same [except] clause: an ERROR record "Error
    capturing snapshot" with the broken-pipe message is logged, the attempt
    to answer 500 fails too, nothing reaches the connection and
    [BrokenPipeError] leaves [do_GET]. *)
Theorem snapshot_for_gone_client (g : Globals) (env : Env) (w : World)
    (out : bytes) :
  snapshot_error env = None ->
  let file := snapshot_path g env in
  let r := do_GET g env "/snapshot" (mkConn (mkHandler [] out false) w) in
  fst r = Raise BrokenPipeError /\
  wfile (hdl (snd r)) = out /\
  world (snd r) =
    log_add (captured w (dirname file) file true) ERROR
      ("Error capturing snapshot: " +:+ exn_str BrokenPipeError).
Proof.
  intros E file r. subst file r. unfold snapshot_error in E.
  unfold log_add, captured, snapshot_path.
  destruct (makedirs_fault env) eqn:E1; [discriminate E|].
  destruct (capture_fault env) eqn:E2; [discriminate E|].
  run_M. rewrite E1. run_M. rewrite E2. run_M.
  repeat split; reflexivity.
Qed.

Lemma snapshot_for_gone_client_witness :
  snapshot_error sample_env = None /\
  fst (do_GET sample_globals sample_env "/snapshot"
         (mkConn (mkHandler [] [] false) sample_world)) =
    Raise BrokenPipeError.
Proof.
  split; [reflexivity|].
  exact (proj1 (snapshot_for_gone_client sample_globals sample_env
                  sample_world [] eq_refl)).
Defined.


(** ** The sink and its readers *)

Lemma waiting_run :
  run sample_globals (init sample_world) waiting_history = Some waiting_state.
Proof. vm_compute. reflexivity. Qed.

Lemma delivered_run :
  run sample_globals (init sample_world) delivered_history =
  Some delivering_state.
Proof. vm_compute. reflexivity. Qed.

Lemma looping_run :
  run sample_globals (init sample_world) looping_history = Some looping_state.
Proof. vm_compute. reflexivity. Qed.


(** X7: at every moment [output.frame] is the buffer of the most recent
    [write], and [None] only as long as nothing has been written. *)
Theorem sink_holds_latest_frame (g : Globals) (w : World) (h : list Event)
    (s : System) :
  run g (init w) h = Some s ->
  frame (output s) = head (publishes h) /\
  (frame (output s) = None <-> publishes h = []).
Proof.
  intros R. pose proof (run_inv g w h s R) as [F _ _].
  split; [exact F|]. rewrite F.
  destruct (publishes h); cbn; split; intros H; (reflexivity || discriminate H).
Qed.

Lemma sink_holds_latest_frame_witness :
  frame (output delivering_state) = head (publishes delivered_history).
Proof.
  exact (proj1 (sink_holds_latest_frame sample_globals sample_world
                  delivered_history delivering_state delivered_run)).
Defined.

(** What [write] does to each thread of a running process. *)
Lemma publish_lookup g w h s buf :
  run g (init w) h = Some s ->
  waiters (condition (output (publish s buf))) = [] /\
  forall i t,
    threads s !! i = Some t ->
    threads (publish s buf) !! i =
      Some (if decide (t_pc t = InWait) then set_pc Woken t else t).
Proof.
  intros R. pose proof (run_inv g w h s R) as [_ W T].
  unfold publish, write, notify_all. cbn.
  split; [reflexivity|].
  intros i t Ht. rewrite list_lookup_imap, Ht. cbn.
  destruct (T i t Ht) as [_ _ _ _ H5 _].
  destruct (decide (t_pc t = InWait)) as [P|P].
  - rewrite (bool_decide_eq_true_2 _ (H5 P)). reflexivity.
  - rewrite bool_decide_eq_false_2; [reflexivity|].
    intros Hin. destruct (W i Hin) as (t0 & Ht0 & P0). congruence.
Qed.

(** X8: [write] is a broadcast: it empties the condition's queue and moves
    every thread blocked in [wait()] to the notified state, whatever their
    number, and leaves every other thread where it stands. *)
Theorem write_wakes_every_waiter (g : Globals) (w : World) (h : list Event)
    (s : System) (buf : bytes) :
  run g (init w) h = Some s ->
  waiters (condition (output (publish s buf))) = [] /\
  forall i t,
    threads s !! i = Some t ->
    threads (publish s buf) !! i =
      Some (if decide (t_pc t = InWait) then set_pc Woken t else t).
Proof. apply publish_lookup. Qed.

Lemma write_wakes_every_waiter_witness :
  threads (publish waiting_state jpeg1) !! 0 = Some (set_pc Woken waiting_thread).
Proof.
  exact (proj2 (write_wakes_every_waiter sample_globals sample_world
                  waiting_history waiting_state jpeg1 waiting_run)
           0 waiting_thread eq_refl).
Defined.

Lemma step_other_thread g s s' e i t :
  publishes [e] = [] ->
  actor e <> Some i ->
  threads s !! i = Some t ->
  step g s e = Some s' ->
  threads s' !! i = Some t /\ frame (output s') = frame (output s).
Proof.
  intros Q A Ht H.
  destruct e as [buf|env path|j|j|j|j]; cbn [step] in H; cbn [actor] in A.
  - discriminate Q.
  - injection H as <-.
    destruct (request_threads g s env path) as [ET EO]. rewrite ET, EO.
    split; [apply lookup_app_l_Some, Ht|reflexivity].
  - unfold enter_wait in H.
    destruct (threads s !! j) as [tj|]; [|discriminate H]. cbn in H.
    destruct (decide (t_pc tj = AtLoop)); [|discriminate H].
    injection H as <-. cbn [threads output frame].
    split; [|reflexivity].
    rewrite list_lookup_insert_ne by congruence. exact Ht.
  - unfold wake in H.
    destruct (threads s !! j) as [tj|]; [|discriminate H]. cbn in H.
    destruct (decide (t_pc tj = Woken)); [|discriminate H].
    injection H as <-. cbn [threads output].
    split; [|reflexivity].
    rewrite list_lookup_insert_ne by congruence. exact Ht.
  - unfold send in H.
    destruct (threads s !! j) as [tj|]; [|discriminate H]. cbn in H.
    destruct (decide (t_pc tj = GotFrame)); [|discriminate H].
    destruct (stream_turn (t_env tj) (t_frame tj)
                (mkConn (t_hdl tj) (sys_world s))) as [r c].
    injection H as <-. cbn [threads output].
    split; [|reflexivity].
    rewrite list_lookup_insert_ne by congruence. exact Ht.
  - unfold disconnect in H.
    destruct (threads s !! j) as [tj|]; [|discriminate H]. cbn in H.
    injection H as <-. cbn [threads output].
    split; [|reflexivity].
    rewrite list_lookup_insert_ne by congruence. exact Ht.
Qed.

(** X9: a step of one handler thread (entering the wait, reading, sending,
    losing its peer) and the arrival of a request leave every other thread
    as it is, its place in the loop, its frame and the bytes sent to it,
    and do not touch the frame in the sink. *)
Theorem thread_steps_are_local (g : Globals) (s s' : System) (e : Event)
    (i : nat) (t : Thread) :
  publishes [e] = [] ->
  actor e <> Some i ->
  threads s !! i = Some t ->
  step g s e = Some s' ->
  threads s' !! i = Some t /\ frame (output s') = frame (output s).
Proof. apply step_other_thread. Qed.

Lemma thread_steps_are_local_witness :
  threads (request sample_globals waiting_state sample_env "/stream.mjpg") !! 0
    = Some waiting_thread.
Proof.
  exact (proj1 (thread_steps_are_local sample_globals waiting_state
                  (request sample_globals waiting_state sample_env
                     "/stream.mjpg")
                  (Request sample_env "/stream.mjpg") 0 waiting_thread
                  eq_refl ltac:(discriminate) eq_refl eq_refl)).
Defined.

(** X10: a frame published while a reader is between its send and its next
    wait raises no notification for it: the reader then blocks in
    [wait()], and as long as no further frame is published it is sent
    nothing and keeps its old frame, so that publish is skipped for it. *)
Theorem busy_reader_skips_publish (g : Globals) (w : World)
    (h0 h : list Event) (s s' : System) (i : nat) (t : Thread) (buf : bytes) :
  run g (init w) h0 = Some s ->
  threads s !! i = Some t ->
  t_pc t = AtLoop ->
  publishes h = [] ->
  run g (publish s buf) h = Some s' ->
  exists t',
    threads s' !! i = Some t' /\
    (t_pc t' = AtLoop \/ t_pc t' = InWait) /\
    t_frame t' = t_frame t /\
    wfile (t_hdl t') = wfile (t_hdl t).
Proof.
  intros R0 Ht P Q R.
  destruct (publish_lookup g w h0 s buf R0) as [_ Hp].
  specialize (Hp i t Ht).
  destruct (decide (t_pc t = InWait)) as [P'|_]; [congruence|].
  exact (run_keeps_blocked g h _ s' i t Q R Hp (or_introl P)).
Qed.

Lemma busy_reader_skips_publish_witness :
  exists s',
    run sample_globals (publish looping_state jpeg2) [EnterWait 0] = Some s' /\
    exists t',
      threads s' !! 0 = Some t' /\
      (t_pc t' = AtLoop \/ t_pc t' = InWait) /\
      t_frame t' = Some jpeg1 /\
      wfile (t_hdl t') = stream_head sample_env ++ mjpeg_part jpeg1.
Proof.
  destruct (run sample_globals (publish looping_state jpeg2) [EnterWait 0])
    as [s'|] eqn:R; [|vm_compute in R; discriminate R].
  exists s'. split; [reflexivity|].
  exact (busy_reader_skips_publish sample_globals sample_world looping_history
           [EnterWait 0] looping_state s' 0 looping_thread jpeg2
           looping_run eq_refl eq_refl eq_refl R).
Defined.


(** What a send does in a running process. *)
Lemma send_lookup g w h s s' i t :
  run g (init w) h = Some s ->
  threads s !! i = Some t ->
  step g s (Send i) = Some s' ->
  exists f,
    t_frame t = Some f /\
    output s' = output s /\
    if connected (t_hdl t)
    then threads s' !! i =
           Some (mkThread (t_path t) (t_env t) AtLoop (Some f)
                   (mkHandler [] (wfile (t_hdl t) ++ mjpeg_part f) true)) /\
         sys_world s' = sys_world s
    else threads s' !! i =
           Some (mkThread (t_path t) (t_env t) Finished (Some f) (t_hdl t)) /\
         sys_world s' =
           log_add (sys_world s) WARNING (removal_notice (t_env t)).
Proof.
  intros R Ht H. pose proof (run_inv g w h s R) as [_ _ T].
  destruct (T i t Ht) as [_ _ H3 H4 _ _].
  cbn [step] in H. unfold send in H. rewrite Ht in H. cbn in H.
  destruct (decide (t_pc t = GotFrame)) as [Hpc|]; [|discriminate H].
  destruct (H3 Hpc) as [f Hf]. exists f. split; [exact Hf|].
  assert (Hb : headers_buffer (t_hdl t) = []) by (apply H4; congruence).
  assert (Hlt : i < length (threads s)) by (eapply lookup_lt_Some, Ht).
  rewrite Hf in H.
  destruct (t_hdl t) as [buf out live] eqn:Eh. cbn in Hb. subst buf.
  destruct live; cbn [connected wfile].
  - rewrite stream_turn_live in H. injection H as <-. cbn [threads output].
    split; [reflexivity|]. split; [|reflexivity].
    rewrite list_lookup_insert_eq by exact Hlt. reflexivity.
  - rewrite stream_turn_dead in H. injection H as <-. cbn [threads output].
    split; [reflexivity|]. split; [|reflexivity].
    rewrite list_lookup_insert_eq by exact Hlt. reflexivity.
Qed.

(** X11: one turn of the loop delivers the frame published during its wait:
    from the top of the loop on a live connection, entering the wait, a
    [write] of a buffer, the return from the wait and the send can follow
    one another, and leave the reader at the top of the loop again with
    exactly the part of that buffer added to its connection. *)
Theorem loop_turn_delivers_written_frame (g : Globals) (w : World)
    (h0 : list Event) (s : System) (i : nat) (t : Thread) (buf : bytes) :
  run g (init w) h0 = Some s ->
  threads s !! i = Some t ->
  t_pc t = AtLoop ->
  connected (t_hdl t) = true ->
  exists s',
    run g s [Send i; Wake i; Publish buf; EnterWait i] = Some s' /\
    threads s' !! i =
      Some (mkThread (t_path t) (t_env t) AtLoop (Some buf)
              (mkHandler [] (wfile (t_hdl t) ++ mjpeg_part buf) true)) /\
    frame (output s') = Some buf /\
    sys_world s' = sys_world s.
Proof.
  intros R0 Ht P C.
  assert (Hlt : i < length (threads s)) by (eapply lookup_lt_Some, Ht).
  (* entering the wait *)
  set (s1 := mkSystem
               (mkOutput (frame (output s))
                  (mkCondition (waiters (condition (output s)) ++ [i])))
               (<[i := set_pc InWait t]> (threads s)) (sys_world s)).
  assert (E1 : step g s (EnterWait i) = Some s1).
  { cbn [step]. unfold enter_wait. rewrite Ht. cbn.
    destruct (decide (t_pc t = AtLoop)); [reflexivity|contradiction]. }
  assert (R1 : run g (init w) (EnterWait i :: h0) = Some s1).
  { cbn [run]. rewrite R0. exact E1. }
  assert (Ht1 : threads s1 !! i = Some (set_pc InWait t)).
  { cbn [s1 threads]. apply list_lookup_insert_eq, Hlt. }
  (* the write *)
  destruct (publish_lookup g w _ s1 buf R1) as [_ Hp].
  specialize (Hp i _ Ht1).
  change (t_pc (set_pc InWait t)) with InWait in Hp.
  destruct (decide (InWait = InWait)) as [_|]; [|contradiction].
  assert (R2 : run g (init w) (Publish buf :: EnterWait i :: h0) =
               Some (publish s1 buf)).
  { cbn [run]. cbn [run] in R1. rewrite R1. reflexivity. }
  assert (F2 : frame (output (publish s1 buf)) = Some buf) by reflexivity.
  assert (W2 : sys_world (publish s1 buf) = sys_world s) by reflexivity.
  set (s2 := publish s1 buf) in *.
  (* the return from the wait *)
  set (t3 := mkThread (t_path t) (t_env t) GotFrame (Some buf) (t_hdl t)).
  set (s3 := mkSystem (output s2) (<[i := t3]> (threads s2)) (sys_world s2)).
  assert (E3 : step g s2 (Wake i) = Some s3).
  { cbn [step]. unfold wake. rewrite Hp.
    cbn [mbind option_bind set_pc t_pc].
    destruct (decide (Woken = Woken)) as [_|]; [|contradiction].
    rewrite F2. reflexivity. }
  assert (R3 : run g (init w) (Wake i :: Publish buf :: EnterWait i :: h0) =
               Some s3).
  { change (run g (init w) (Wake i :: Publish buf :: EnterWait i :: h0))
      with (run g (init w) (Publish buf :: EnterWait i :: h0)
              ≫= fun s => step g s (Wake i)).
    rewrite R2. exact E3. }
  assert (Ht3 : threads s3 !! i = Some t3).
  { cbn [s3 threads]. apply list_lookup_insert_eq.
    eapply lookup_lt_Some, Hp. }
  (* the send *)
  assert (E4 : is_Some (step g s3 (Send i))).
  { cbn [step]. unfold send. rewrite Ht3.
    cbn [mbind option_bind t3 t_pc t_env t_frame t_hdl].
    destruct (decide (GotFrame = GotFrame)) as [_|]; [|contradiction].
    destruct (stream_turn (t_env t) (Some buf)
                (mkConn (t_hdl t) (sys_world s3))). eauto. }
  destruct E4 as [s4 E4].
  destruct (send_lookup g w _ s3 s4 i t3 R3 Ht3 E4) as (f & Hf & O4 & H4).
  cbn [t3 t_frame] in Hf. injection Hf as <-.
  cbn [t3 t_hdl t_path t_env] in H4. rewrite C in H4. destruct H4 as [H4 W4].
  exists s4. split.
  - change (run g s [Send i; Wake i; Publish buf; EnterWait i])
      with (((step g s (EnterWait i) ≫= fun s => step g s (Publish buf))
               ≫= fun s => step g s (Wake i)) ≫= fun s => step g s (Send i)).
    rewrite E1. cbn [mbind option_bind].
    change (step g s1 (Publish buf)) with (Some s2). cbn [mbind option_bind].
    rewrite E3. exact E4.
  - split; [exact H4|]. rewrite O4, W4. split; [exact F2|exact W2].
Qed.

Lemma loop_turn_delivers_written_frame_witness :
  exists s',
    run sample_globals looping_state
      [Send 0; Wake 0; Publish jpeg2; EnterWait 0] = Some s' /\
    threads s' !! 0 =
      Some (mkThread "/stream.mjpg" sample_env AtLoop (Some jpeg2)
              (mkHandler []
                 ((stream_head sample_env ++ mjpeg_part jpeg1) ++
                  mjpeg_part jpeg2) true)) /\
    frame (output s') = Some jpeg2 /\
    sys_world s' = sample_world.
Proof.
  exact (loop_turn_delivers_written_frame sample_globals sample_world
           looping_history looping_state 0 looping_thread jpeg2
           looping_run eq_refl eq_refl eq_refl).
Defined.




(** ** How each event moves a thread *)

Lemma step_moves g w h s e s' i t :
  run g (init w) h = Some s ->
  step g s e = Some s' ->
  threads s !! i = Some t ->
  exists t', threads s' !! i = Some t' /\ thread_move s i t e t'.
Proof.
  intros R H Ht.
  assert (Hlt : i < length (threads s)) by (eapply lookup_lt_Some, Ht).
  assert (Hother : publishes [e] = [] -> actor e <> Some i ->
                   exists t', threads s' !! i = Some t' /\ thread_move s i t e t').
  { intros Q A. exists t. split; [|apply move_none; assumption].
    apply (step_other_thread g s s' e i t Q A Ht H). }
  destruct e as [buf|env path|j|j|j|j].
  - cbn [step] in H. injection H as <-.
    destruct (publish_lookup g w h s buf R) as [_ Hp].
    eexists. split; [apply Hp, Ht|apply move_publish].
  - apply Hother; [reflexivity|discriminate].
  - destruct (decide (j = i)) as [->|Hne];
      [|apply Hother; [reflexivity|cbn; congruence]].
    cbn [step] in H. unfold enter_wait in H. rewrite Ht in H. cbn in H.
    destruct (decide (t_pc t = AtLoop)) as [P|]; [|discriminate H].
    injection H as <-. cbn [threads].
    eexists. split; [apply list_lookup_insert_eq, Hlt|apply move_enter, P].
  - destruct (decide (j = i)) as [->|Hne];
      [|apply Hother; [reflexivity|cbn; congruence]].
    pose proof (run_inv g w h s R) as [F _ T].
    destruct (T i t Ht) as [H1 _ _ _ _ _].
    cbn [step] in H. unfold wake in H. rewrite Ht in H. cbn in H.
    destruct (decide (t_pc t = Woken)) as [P|]; [|discriminate H].
    injection H as <-. cbn [threads].
    assert (exists f, frame (output s) = Some f) as [f Hf].
    { rewrite F. specialize (H1 P). unfold generation in H1.
      destruct (publishes h); [cbn in H1; lia|]. cbn. eauto. }
    eexists. split; [apply list_lookup_insert_eq, Hlt|].
    rewrite Hf. apply move_wake; assumption.
  - destruct (decide (j = i)) as [->|Hne];
      [|apply Hother; [reflexivity|cbn; congruence]].
    assert (P : t_pc t = GotFrame).
    { cbn [step] in H. unfold send in H. rewrite Ht in H. cbn in H.
      destruct (decide (t_pc t = GotFrame)); [assumption|discriminate H]. }
    destruct (send_lookup g w h s s' i t R Ht H) as (f & Hf & _ & Hs).
    destruct (connected (t_hdl t)) eqn:C; destruct Hs as [Hs _];
      eexists; (split; [exact Hs|]).
    + apply move_send_live; assumption.
    + apply move_send_dead; assumption.
  - destruct (decide (j = i)) as [->|Hne];
      [|apply Hother; [reflexivity|cbn; congruence]].
    cbn [step] in H. unfold disconnect in H. rewrite Ht in H. cbn in H.
    injection H as <-. cbn [threads].
    eexists. split; [apply list_lookup_insert_eq, Hlt|apply move_disconnect].
Qed.

(** A thread that was not there before the step was started by a request. *)
Lemma step_new g s e s' i t' :
  step g s e = Some s' ->
  threads s !! i = None ->
  threads s' !! i = Some t' ->
  exists env path, e = Request env path /\ t' = started_thread g s env path.
Proof.
  intros H Hn Ht'.
  assert (Hge : length (threads s) <= i) by (apply lookup_ge_None, Hn).
  assert (Hlt : i < length (threads s')) by (eapply lookup_lt_Some, Ht').
  destruct e as [buf|env path|j|j|j|j]; cbn [step] in H.
  - injection H as <-. unfold publish, write, notify_all in Hlt. cbn in Hlt.
    rewrite length_imap in Hlt. lia.
  - injection H as <-. exists env, path. split; [reflexivity|].
    destruct (request_threads g s env path) as [ET _]. rewrite ET in Ht'.
    apply lookup_snoc_Some in Ht'. destruct Ht' as [[Hl _]|[_ <-]]; [lia|].
    reflexivity.
  - unfold enter_wait in H.
    destruct (threads s !! j) as [tj|]; [|discriminate H]. cbn in H.
    destruct (decide (t_pc tj = AtLoop)); [|discriminate H].
    injection H as <-. cbn in Hlt. rewrite length_insert in Hlt. lia.
  - unfold wake in H.
    destruct (threads s !! j) as [tj|]; [|discriminate H]. cbn in H.
    destruct (decide (t_pc tj = Woken)); [|discriminate H].
    injection H as <-. cbn in Hlt. rewrite length_insert in Hlt. lia.
  - unfold send in H.
    destruct (threads s !! j) as [tj|]; [|discriminate H]. cbn in H.
    destruct (decide (t_pc tj = GotFrame)); [|discriminate H].
    destruct (stream_turn (t_env tj) (t_frame tj)
                (mkConn (t_hdl tj) (sys_world s))) as [r c].
    injection H as <-. cbn in Hlt. rewrite length_insert in Hlt. lia.
  - unfold disconnect in H.
    destruct (threads s !! j) as [tj|]; [|discriminate H]. cbn in H.
    injection H as <-. cbn in Hlt. rewrite length_insert in Hlt. lia.
Qed.

(** Induction over the life of a thread: a property that holds of every
    thread as a request starts it and is kept by every move holds of every
    thread of the running process. *)
Lemma thread_induction g w (P : list Event -> nat -> Thread -> Prop) :
  (forall h s env path,
     run g (init w) h = Some s ->
     P (Request env path :: h) (length (threads s))
       (started_thread g s env path)) ->
  (forall h s e i t t',
     run g (init w) h = Some s ->
     threads s !! i = Some t ->
     P h i t ->
     thread_move s i t e t' ->
     P (e :: h) i t') ->
  forall h s i t,
    run g (init w) h = Some s -> threads s !! i = Some t -> P h i t.
Proof.
  intros Hstart Hmove.
  induction h as [|e h IH]; intros s i t R Ht.
  - cbn in R. injection R as <-. cbn in Ht. rewrite lookup_nil in Ht.
    discriminate Ht.
  - cbn [run] in R.
    destruct (run g (init w) h) as [s1|] eqn:R1; [|discriminate R]. cbn in R.
    destruct (threads s1 !! i) as [t1|] eqn:Ht1.
    + destruct (step_moves g w h s1 e s i t1 R1 R Ht1) as (t' & Ht' & M).
      assert (t' = t) by congruence. subst t'.
      eapply Hmove; [exact R1|exact Ht1|apply (IH s1 i t1 eq_refl Ht1)|exact M].
    + destruct (step_new g s1 e s i t R Ht1 Ht) as (env & path & -> & ->).
      assert (i = length (threads s1)) as ->.
      { apply lookup_ge_None in Ht1.
        cbn [step] in R. injection R as <-.
        destruct (request_threads g s1 env path) as [ET _].
        apply lookup_lt_Some in Ht. rewrite ET, length_app in Ht. cbn in Ht.
        lia. }
      apply Hstart, R1.
Qed.

(** ** Handlers that have returned, and routes that never loop *)

(** X13: once a handler has left [do_GET], by answering a one-shot route or
    by losing its streaming client, nothing more happens to it: whatever
    the process does afterwards, it stays finished, is never notified, and
    not one more byte is written to its connection. *)
Theorem finished_handler_is_inert (g : Globals) (w : World)
    (h0 h : list Event) (s s' : System) (i : nat) (t : Thread) :
  run g (init w) h0 = Some s ->
  threads s !! i = Some t ->
  t_pc t = Finished ->
  run g s h = Some s' ->
  exists t',
    threads s' !! i = Some t' /\
    t_pc t' = Finished /\
    t_frame t' = t_frame t /\
    wfile (t_hdl t') = wfile (t_hdl t).
Proof.
  intros R0 Ht P. revert s'.
  induction h as [|e h IH]; intros s' R.
  - cbn in R. injection R as <-. exists t. auto.
  - cbn [run] in R.
    destruct (run g s h) as [s1|] eqn:R1; [|discriminate R]. cbn in R.
    destruct (IH s1 eq_refl) as (t1 & Ht1 & P1 & F1 & W1).
    assert (Rall : run g (init w) (h ++ h0) = Some s1).
    { rewrite run_app, R0. exact R1. }
    destruct (step_moves g w _ s1 e s' i t1 Rall R Ht1) as (t2 & Ht2 & M).
    exists t2. split; [exact Ht2|].
    inversion M; subst; try congruence; cbn; auto.
    destruct (decide (t_pc t1 = InWait)); [congruence|auto].
Qed.

Lemma orphaned_removed_run :
  run sample_globals (init sample_world) (Send 0 :: orphaned_history) =
  Some (mkSystem (mkOutput (Some jpeg1) (mkCondition []))
          [set_pc Finished orphaned_thread]
          (log_add sample_world WARNING (removal_notice sample_env))).
Proof. vm_compute. reflexivity. Qed.

Lemma finished_handler_is_inert_witness :
  exists s',
    run sample_globals
      (mkSystem (mkOutput (Some jpeg1) (mkCondition []))
         [set_pc Finished orphaned_thread]
         (log_add sample_world WARNING (removal_notice sample_env)))
      [Publish jpeg2] = Some s' /\
    exists t',
      threads s' !! 0 = Some t' /\
      t_pc t' = Finished /\
      t_frame t' = Some jpeg1 /\
      wfile (t_hdl t') = stream_head sample_env.
Proof.
  eexists. split; [reflexivity|].
  exact (finished_handler_is_inert sample_globals sample_world
           (Send 0 :: orphaned_history) [Publish jpeg2] _ _ 0
           (set_pc Finished orphaned_thread)
           orphaned_removed_run eq_refl eq_refl eq_refl).
Defined.

(** X14: only a request for /stream.mjpg ever meets the sink: the handler
    of any other path is finished as soon as it has answered, never holds
    a frame and is never queued on the condition. *)
Theorem one_shot_routes_never_wait (g : Globals) (w : World)
    (h : list Event) (s : System) (i : nat) (t : Thread) :
  run g (init w) h = Some s ->
  threads s !! i = Some t ->
  t_path t <> "/stream.mjpg" ->
  t_pc t = Finished /\
  t_frame t = None /\
  (i ∉ waiters (condition (output s))).
Proof.
  intros R Ht Hp.
  assert (H : t_pc t = Finished /\ t_frame t = None).
  { revert Hp.
    apply (thread_induction g w
             (fun _ _ t => t_path t <> "/stream.mjpg" ->
                           t_pc t = Finished /\ t_frame t = None))
      with (h := h) (s := s) (i := i); [| |exact R|exact Ht].
    - intros h1 s1 env path _ Hp. unfold started_thread in *.
      destruct (String.eqb path "/stream.mjpg") eqn:E.
      + apply String.eqb_eq in E. subst path. contradiction.
      + split; reflexivity.
    - intros h1 s1 e j t1 t2 _ _ IH M Hp.
      inversion M; subst; cbn in Hp; try (destruct (IH Hp); congruence).
      + apply IH, Hp.
      + destruct (decide (t_pc t1 = InWait)) as [P|P].
        * destruct (IH Hp); congruence.
        * apply IH, Hp.
      + cbn. apply IH, Hp. }
  destruct H as [P F]. repeat split; try assumption.
  intros Hin. pose proof (run_inv g w h s R) as [_ W _].
  destruct (W i Hin) as (t0 & Ht0 & P0). congruence.
Qed.

Lemma mixed_run :
  run sample_globals (init sample_world) mixed_history = Some mixed_state.
Proof. vm_compute. reflexivity. Qed.

Lemma one_shot_routes_never_wait_witness :
  t_path index_thread <> "/stream.mjpg" /\
  t_pc index_thread = Finished /\
  t_frame index_thread = None /\
  (1 ∉ waiters (condition (output mixed_state))).
Proof.
  assert (H : t_path index_thread <> "/stream.mjpg") by discriminate.
  split; [exact H|].
  exact (one_shot_routes_never_wait sample_globals sample_world mixed_history
           mixed_state 1 index_thread mixed_run eq_refl H).
Defined.

(** ** The order of delivery *)

Lemma quiet_of_actor i e : publishes [e] = [] -> actor e <> Some i -> quiet_for i e.
Proof.
  destruct e; cbn; intros Q A; try exact I; try discriminate Q.
  congruence.
Qed.

Lemma take_rev_publishes_le n h buf :
  n <= generation h ->
  take n (rev (publishes (Publish buf :: h))) = take n (rev (publishes h)).
Proof.
  intros H. cbn [publishes rev]. apply take_app_le.
  rewrite length_rev. exact H.
Qed.

Lemma pending_not_got t : t_pc t <> GotFrame -> pending t = [].
Proof. unfold pending. destruct (t_pc t); congruence. Qed.

Lemma run_ordered g w h s i t :
  run g (init w) h = Some s -> threads s !! i = Some t -> ordered_wire h i t.
Proof.
  apply (thread_induction g w ordered_wire).
  - intros h1 s1 env path _ P. unfold started_thread in *.
    destruct (String.eqb path "/stream.mjpg") eqn:E.
    + exists []. cbn. rewrite app_nil_r. split; [reflexivity|].
      apply sublist_nil_l.
    + cbn in P. rewrite P in E. discriminate E.
  - intros h1 s1 e j t1 t2 R Ht IH M P.
    pose proof (run_inv g w h1 s1 R) as [F _ T].
    destruct (T j t1 Ht) as [H1 _ _ _ _ _].
    pose proof (last_seen_le j h1) as LE.
    inversion M; subst.
    + destruct (IH P) as (fs & E & S).
      exists fs. split; [exact E|].
      pose proof (quiet_of_actor j e H H0) as Q.
      rewrite (quiet_last_seen j e h1 Q), (quiet_publishes j e h1 Q). exact S.
    + assert (P1 : t_path t1 = "/stream.mjpg")
        by (destruct (decide (t_pc t1 = InWait)); exact P).
      destruct (IH P1) as (fs & E & S).
      change (last_seen j (Publish buf :: h1)) with (last_seen j h1).
      rewrite take_rev_publishes_le by exact LE.
      destruct (decide (t_pc t1 = InWait)) as [Pw|Pw].
      * exists fs. split; [exact E|].
        rewrite pending_not_got in S by congruence.
        rewrite pending_not_got by (cbn; congruence). exact S.
      * exists fs. split; [exact E|exact S].
    + destruct (IH P) as (fs & E & S).
      exists fs. split; [exact E|].
      rewrite pending_not_got in S by congruence.
      rewrite pending_not_got by (cbn; congruence). exact S.
    + destruct (IH P) as (fs & E & S).
      exists fs. split; [exact E|].
      rewrite pending_not_got in S by congruence. rewrite app_nil_r in S.
      specialize (H1 H). rewrite F in H0.
      cbn [last_seen]. destruct (decide (j = j)) as [_|]; [|contradiction].
      change (publishes (Wake j :: h1)) with (publishes h1).
      unfold generation in *.
      destruct (publishes h1) as [|f0 rest] eqn:Ep; [discriminate H0|].
      cbn in H0. injection H0 as ->.
      cbn [rev] in *. cbn [length] in *.
      rewrite take_ge by (rewrite length_app, length_rev; cbn; lia).
      rewrite take_app_le in S by (rewrite length_rev; lia).
      unfold pending. cbn [t_pc t_frame].
      apply sublist_app; [|reflexivity].
      etrans; [exact S|apply sublist_take].
    + destruct (IH P) as (fs & E & S).
      exists (fs ++ [f]). split.
      * cbn [t_hdl wfile t_env]. rewrite E, flat_map_app, <- app_assoc. cbn.
        rewrite app_nil_r. reflexivity.
      * unfold pending in *. rewrite H, H0 in S. cbn [t_pc t_frame].
        rewrite app_nil_r. exact S.
    + destruct (IH P) as (fs & E & S).
      exists fs. split; [exact E|].
      unfold pending in *. rewrite H, H0 in S. cbn [t_pc t_frame].
      rewrite app_nil_r. etrans; [|exact S].
      apply sublist_inserts_r. reflexivity.
    + destruct (IH P) as (fs & E & S).
      exists fs. split; [exact E|exact S].
Qed.

(** X15: the frames sent on a stream connection are an in-order selection
    of the frames published: a client may miss frames, but it never
    receives them out of order and never receives one publish twice. *)
Theorem frames_arrive_in_publication_order (g : Globals) (w : World)
    (h : list Event) (s : System) (i : nat) (t : Thread) :
  run g (init w) h = Some s ->
  threads s !! i = Some t ->
  t_path t = "/stream.mjpg" ->
  exists fs,
    wfile (t_hdl t) = stream_head (t_env t) ++ flat_map mjpeg_part fs /\
    sublist fs (rev (publishes h)).
Proof.
  intros R Ht P.
  destruct (run_ordered g w h s i t R Ht P) as (fs & E & S).
  exists fs. split; [exact E|].
  etrans; [|etrans; [exact S|apply sublist_take]].
  apply sublist_inserts_r. reflexivity.
Qed.

Lemma two_readers_run :
  run sample_globals (init sample_world) two_readers_history =
  Some two_readers_state.
Proof. vm_compute. reflexivity. Qed.

Lemma frames_arrive_in_publication_order_witness :
  rev (publishes two_readers_history) = [jpeg1; jpeg2] /\
  exists fs,
    stream_head sample_env ++ mjpeg_part jpeg2 =
      stream_head sample_env ++ flat_map mjpeg_part fs /\
    sublist fs (rev (publishes two_readers_history)).
Proof.
  split; [reflexivity|].
  exact (frames_arrive_in_publication_order sample_globals sample_world
           two_readers_history two_readers_state 1
           (mkThread "/stream.mjpg" sample_env AtLoop (Some jpeg2)
              (mkHandler [] (stream_head sample_env ++ mjpeg_part jpeg2) true))
           two_readers_run eq_refl eq_refl).
Defined.


(** ** Startup and shutdown *)

Lemma get_local_ip_run net w :
  get_local_ip net w =
    (Ok match socket_fault net, connect_fault net, getsockname net with
        | None, None, Ok a => fst a
        | _, _, _ => "127.0.0.1"
        end,
     w).
Proof.
  unfold get_local_ip, try_except, net_call, mbind, M_bind, bind, raise, mret,
    M_ret, ret.
  destruct (socket_fault net), (connect_fault net), (getsockname net);
    reflexivity.
Qed.

(** X16: once the recording has started, [stop_recording] is called exactly
    once and last, whatever ends the server block: a failure to bind the
    port, an exception out of [serve_forever] or an interrupt; what ended
    it still propagates, and the server listens on port 8000 of every
    interface exactly when binding went through. *)
Theorem recording_is_stopped_on_every_exit (b : Boot) (p : Proc)
    (flip : string) :
  parse_args (flip_arg b) = Some flip ->
  camera_fault b = None ->
  recording_fault b = None ->
  camera_calls (snd (main b p)) =
    camera_calls p ++
    [Picamera2_new; create_video_configuration 640 480 (transform_of flip);
     configure; start_recording; stop_recording]%N /\
  fst (main b p) =
    match bind_fault b with
    | Some e => Exception e
    | None => serve_end b
    end /\
  listening (snd (main b p)) =
    match bind_fault b with
    | Some _ => listening p
    | None => Some ("", 8000%N)
    end.
Proof.
  intros A C R. unfold main. rewrite A, C, R.
  unfold server_block. rewrite !get_local_ip_run.
  destruct (bind_fault b); cbn; rewrite <- ?app_assoc, ?app_nil_r;
    repeat split; reflexivity.
Qed.

Lemma recording_is_stopped_on_every_exit_witness :
  parse_args (flip_arg sample_boot) = Some "hv" /\
  fst (main sample_boot sample_proc) = KeyboardInterrupt /\
  camera_calls (snd (main sample_boot sample_proc)) =
    [Picamera2_new; create_video_configuration 640 480 (mkTransform true true);
     configure; start_recording; stop_recording]%N.
Proof.
  destruct (recording_is_stopped_on_every_exit sample_boot sample_proc "hv"
              eq_refl eq_refl eq_refl) as (Hc & Hr & _).
  split; [reflexivity|]. split; [exact Hr|exact Hc].
Defined.

(** X17: when the command line is rejected, or the camera cannot be created
    or started, the block ends before the [try]: the exit or the error
    propagates, [stop_recording] is not called, no server is bound and
    nothing is logged. *)
Theorem early_exit_skips_server_and_stop (b : Boot) (p : Proc) (sig : signal) :
  early_exit b = Some sig ->
  fst (main b p) = sig /\
  (stop_recording ∉
     drop (length (camera_calls p)) (camera_calls (snd (main b p)))) /\
  listening (snd (main b p)) = listening p /\
  p_world (snd (main b p)) = p_world p.
Proof.
  unfold early_exit, main.
  destruct (parse_args (flip_arg b)) as [flip|].
  - destruct (camera_fault b) as [e|].
    + intros [= <-]. cbn. rewrite drop_app_length. repeat split.
      intros Hin. apply list_elem_of_singleton in Hin. discriminate Hin.
    + destruct (recording_fault b) as [e|]; [|discriminate].
      intros [= <-]. cbn. rewrite <- !app_assoc, drop_app_length. repeat split.
      intros Hin.
      repeat (apply elem_of_cons in Hin; destruct Hin as [Hin|Hin];
              [discriminate Hin|]).
      apply elem_of_nil in Hin. exact Hin.
  - intros [= <-]. cbn. rewrite drop_all. repeat split.
    apply not_elem_of_nil.
Qed.

Lemma early_exit_skips_server_and_stop_witness :
  early_exit (mkBoot (Some "x") None None sample_net None KeyboardInterrupt) =
    Some (SystemExit 2) /\
  fst (main (mkBoot (Some "x") None None sample_net None KeyboardInterrupt)
         sample_proc) = SystemExit 2.
Proof.
  split; [reflexivity|].
  exact (proj1 (early_exit_skips_server_and_stop
                  (mkBoot (Some "x") None None sample_net None KeyboardInterrupt)
                  sample_proc (SystemExit 2) eq_refl)).
Defined.

(** ** The bytes of the stream *)

Lemma step_length g s e s' :
  step g s e = Some s' ->
  length (threads s') =
  length (threads s) + match e with Request _ _ => 1 | _ => 0 end.
Proof.
  intros H. destruct e as [buf|env path|j|j|j|j]; cbn [step] in H.
  - injection H as <-. unfold publish, write, notify_all. cbn.
    rewrite length_imap. lia.
  - injection H as <-. destruct (request_threads g s env path) as [ET _].
    rewrite ET, length_app. reflexivity.
  - unfold enter_wait in H.
    destruct (threads s !! j) as [tj|]; [|discriminate H]. cbn in H.
    destruct (decide (t_pc tj = AtLoop)); [|discriminate H].
    injection H as <-. cbn. rewrite length_insert. lia.
  - unfold wake in H.
    destruct (threads s !! j) as [tj|]; [|discriminate H]. cbn in H.
    destruct (decide (t_pc tj = Woken)); [|discriminate H].
    injection H as <-. cbn. rewrite length_insert. lia.
  - unfold send in H.
    destruct (threads s !! j) as [tj|]; [|discriminate H]. cbn in H.
    destruct (decide (t_pc tj = GotFrame)); [|discriminate H].
    destruct (stream_turn (t_env tj) (t_frame tj)
                (mkConn (t_hdl tj) (sys_world s))) as [r c].
    injection H as <-. cbn. rewrite length_insert. lia.
  - unfold disconnect in H.
    destruct (threads s !! j) as [tj|]; [|discriminate H]. cbn in H.
    injection H as <-. cbn. rewrite length_insert. lia.
Qed.

(** A thread that does not exist yet has sent nothing. *)
Lemma sends_fresh g w h : forall s i,
  run g (init w) h = Some s -> length (threads s) <= i -> sends i h = 0.
Proof.
  induction h as [|e h IH]; intros s i R Hi; [reflexivity|].
  cbn [run] in R.
  destruct (run g (init w) h) as [s1|] eqn:R1; [|discriminate R]. cbn in R.
  pose proof (step_length g s1 e s R) as HL.
  assert (IH' : sends i h = 0) by (apply (IH s1 i eq_refl); lia).
  destruct e as [buf|env path|j|j|j|j]; cbn [sends]; try exact IH'.
  destruct (decide (i = j)) as [->|]; [|rewrite IH'; reflexivity].
  cbn [step] in R. unfold send in R.
  destruct (threads s1 !! j) as [tj|] eqn:Hj; [|discriminate R].
  apply lookup_lt_Some in Hj. lia.
Qed.

Lemma sends_other i e h : actor e <> Some i -> sends i (e :: h) = sends i h.
Proof.
  destruct e; cbn; intros A; try reflexivity.
  destruct (decide (i = i0)); [congruence|reflexivity].
Qed.

Lemma publishes_grow e h f : f ∈ publishes h -> f ∈ publishes (e :: h).
Proof. destruct e; cbn; intros H; try exact H. apply elem_of_cons. auto. Qed.

Lemma run_counted g w h s i t :
  run g (init w) h = Some s -> threads s !! i = Some t -> counted_wire h i t.
Proof.
  apply (thread_induction g w counted_wire).
  - intros h1 s1 env path R P. unfold started_thread in *.
    destruct (String.eqb path "/stream.mjpg") eqn:E.
    + exists []. cbn. rewrite app_nil_r. split; [reflexivity|]. split.
      * intros f Hf. apply elem_of_nil in Hf. contradiction.
      * intros _. symmetry. apply (sends_fresh g w h1 s1 _ R). lia.
    + cbn in P. rewrite P in E. discriminate E.
  - intros h1 s1 e j t1 t2 R Ht IH M P.
    pose proof (run_inv g w h1 s1 R) as [_ _ T].
    destruct (T j t1 Ht) as [_ H2 _ _ _ _].
    inversion M; subst.
    + destruct (IH P) as (fs & E & Hp & Hn).
      exists fs. split; [exact E|]. split.
      * intros f Hf. apply publishes_grow, Hp, Hf.
      * rewrite (sends_other j e h1 H0). exact Hn.
    + assert (P1 : t_path t1 = "/stream.mjpg")
        by (destruct (decide (t_pc t1 = InWait)); exact P).
      destruct (IH P1) as (fs & E & Hp & Hn).
      exists fs.
      destruct (decide (t_pc t1 = InWait)) as [Pw|Pw];
        (split; [exact E|]; split;
         [intros f Hf; apply publishes_grow, Hp, Hf|]).
      * intros _. apply Hn. congruence.
      * exact Hn.
    + destruct (IH P) as (fs & E & Hp & Hn).
      exists fs. split; [exact E|]. split; [exact Hp|].
      intros _. apply Hn. congruence.
    + destruct (IH P) as (fs & E & Hp & Hn).
      exists fs. split; [exact E|]. split; [exact Hp|].
      intros _. apply Hn. congruence.
    + destruct (IH P) as (fs & E & Hp & Hn).
      exists (fs ++ [f]). split; [|split].
      * cbn [t_hdl wfile t_env]. rewrite E, flat_map_app, <- app_assoc. cbn.
        rewrite app_nil_r. reflexivity.
      * intros f' Hf'. apply elem_of_app in Hf'. destruct Hf' as [Hf'|Hf'].
        -- apply (Hp f' Hf').
        -- apply list_elem_of_singleton in Hf'. subst f'. apply (H2 f H0).
      * intros _. rewrite length_app. cbn [length sends].
        destruct (decide (j = j)) as [_|]; [|contradiction].
        rewrite Hn by congruence. lia.
    + destruct (IH P) as (fs & E & Hp & Hn).
      exists fs. split; [exact E|]. split; [exact Hp|].
      cbn. congruence.
    + destruct (IH P) as (fs & E & Hp & Hn).
      exists fs. split; [exact E|]. split; [exact Hp|exact Hn].
Qed.

(** C3: a GET /stream.mjpg is answered 200 with the headers Age: 0,
    Cache-Control: no-cache, private, Pragma: no-cache and Content-Type:
    multipart/x-mixed-replace; boundary=FRAME.  After that head the
    connection carries nothing but whole parts of published frames, one
    for each send of its loop.  A notified reader can always read, and it
    reads the latest published frame; a reader holding a frame can always
    send, and on a live connection the send appends, in this order, the
    boundary line, Content-Type: image/jpeg, Content-Length with the
    frame's length, a blank line, the frame's bytes and a CRLF (a send to
    a peer that has gone writes nothing). *)
Theorem stream_response_format (g : Globals) :
  (forall env w,
     serve g env "/stream.mjpg" w =
       (Ok EnterLoop, mkConn (mkHandler [] (stream_head env) true) w)) /\
  (forall w h s i t,
     run g (init w) h = Some s ->
     threads s !! i = Some t ->
     t_path t = "/stream.mjpg" ->
     (exists fs,
        wfile (t_hdl t) = stream_head (t_env t) ++ flat_map mjpeg_part fs /\
        (forall f, f ∈ fs -> f ∈ publishes h) /\
        (t_pc t <> Finished -> length fs = sends i h)) /\
     (forall s',
        step g s (Send i) = Some s' ->
        exists t' f,
          threads s' !! i = Some t' /\
          t_frame t = Some f /\
          wfile (t_hdl t') =
            wfile (t_hdl t) ++
            (if connected (t_hdl t) then mjpeg_part f else [])) /\
     (t_pc t = Woken ->
      exists s' f,
        step g s (Wake i) = Some s' /\
        head (publishes h) = Some f /\
        threads s' !! i =
          Some (mkThread (t_path t) (t_env t) GotFrame (Some f) (t_hdl t))) /\
     (t_pc t = GotFrame ->
      exists s' f,
        step g s (Send i) = Some s' /\
        t_frame t = Some f /\
        threads s' !! i =
          Some (if connected (t_hdl t)
                then mkThread (t_path t) (t_env t) AtLoop (Some f)
                       (mkHandler [] (wfile (t_hdl t) ++ mjpeg_part f) true)
                else mkThread (t_path t) (t_env t) Finished (Some f)
                       (t_hdl t)))).
Proof.
  split; [intros env w; apply serve_stream|].
  intros w h s i t R Ht P.
  pose proof (run_inv g w h s R) as [F W T].
  destruct (T i t Ht) as [H1 _ H3 H4 _ _].
  assert (Hlt : i < length (threads s)) by (eapply lookup_lt_Some, Ht).
  split; [exact (run_counted g w h s i t R Ht P)|].
  split; [|split].
  - intros s' H.
    destruct (send_lookup g w h s s' i t R Ht H) as (f & Hf & _ & Hs).
    destruct (connected (t_hdl t)); destruct Hs as [Hs _];
      eexists; exists f; (split; [exact Hs|]); (split; [exact Hf|]).
    + reflexivity.
    + cbn. rewrite app_nil_r. reflexivity.
  - intros Pw.
    assert (exists f, head (publishes h) = Some f) as [f Hf].
    { specialize (H1 Pw). unfold generation in H1.
      destruct (publishes h); [cbn in H1; lia|]. cbn. eauto. }
    eexists. exists f. split; [|split; [exact Hf|]].
    + cbn [step]. unfold wake. rewrite Ht. cbn [mbind option_bind].
      destruct (decide (t_pc t = Woken)) as [_|]; [|contradiction].
      rewrite F, Hf. reflexivity.
    + cbn [threads]. apply list_lookup_insert_eq, Hlt.
  - intros Pg.
    destruct (H3 Pg) as [f Hf].
    assert (Hb : headers_buffer (t_hdl t) = []) by (apply H4; congruence).
    assert (E : is_Some (step g s (Send i))).
    { cbn [step]. unfold send. rewrite Ht. cbn [mbind option_bind].
      destruct (decide (t_pc t = GotFrame)) as [_|]; [|contradiction].
      destruct (stream_turn (t_env t) (t_frame t)
                  (mkConn (t_hdl t) (sys_world s))). eauto. }
    destruct E as [s' E]. exists s', f. split; [exact E|]. split; [exact Hf|].
    destruct (send_lookup g w h s s' i t R Ht E) as (f' & Hf' & _ & Hs).
    assert (f' = f) by congruence. subst f'.
    destruct (connected (t_hdl t)); destruct Hs as [Hs _]; exact Hs.
Qed.

(** The sample reader, holding its first frame, sends it: the connection
    then carries the head and the part of that frame. *)
Lemma stream_response_format_witness :
  run sample_globals (init sample_world) delivered_history =
    Some delivering_state /\
  exists s' f,
    step sample_globals delivering_state (Send 0) = Some s' /\
    t_frame delivering_thread = Some f /\
    threads s' !! 0 =
      Some (mkThread "/stream.mjpg" sample_env AtLoop (Some f)
              (mkHandler [] (stream_head sample_env ++ mjpeg_part f) true)).
Proof.
  assert (R0 : run sample_globals (init sample_world) delivered_history =
               Some delivering_state) by (vm_compute; reflexivity).
  split; [exact R0|].
  exact (proj2 (proj2 (proj2 (proj2 (stream_response_format sample_globals)
                  sample_world delivered_history delivering_state 0
                  delivering_thread R0 eq_refl eq_refl))) eq_refl).
Defined.
